(** * Record_Backend: authentication and support-ticket controllers

    A shallow embedding of [controllers/authController.js] and
    [controllers/supportController.js] (with the schema of
    [models/SupportRequest.js]).  Every Express handler becomes a function
    from the request and the current [world] (document store plus console)
    to the HTTP response and the next [world].  The body of each [try]
    block runs in a small state-and-exception monad; [catch] is
    [try_catch]. *)

From Stdlib Require Import String Ascii List ZArith Bool Lia.
From Stdlib Require Import Permutation.
Import ListNotations.
Open Scope string_scope.
Open Scope Z_scope.

(** ** JavaScript values that reach the wire *)

(** Payload of a session token: [{ id, iat, exp }], times in seconds. *)
Record claims := mkClaims { c_id : nat; c_iat : Z; c_exp : Z }.

(** A bearer string, seen symbolically: either it does not parse as a JWT,
    or it is the compact form of [payload] signed with [key]. *)
Inductive jwt :=
| jwt_garbage (raw : string)
| jwt_signed (payload : claims) (key : string).

(** JSON documents as sent by [res.json].  [JTok t] is the JSON string
    that holds the compact serialisation of [t]. *)
#[warnings="-register-all"]
Inductive json :=
| JNull
| JBool (b : bool)
| JNum (z : Z)
| JStr (s : string)
| JTok (t : jwt)
| JArr (items : list json)
| JObj (fields : list (string * json)).

Record response := mkResponse { status : Z; body : json }.

(** [res.status(c).json(b)] and [res.json(b)]. *)
Definition status_json (c : Z) (b : json) : response := mkResponse c b.
Definition res_json (b : json) : response := mkResponse 200 b.

(** Does the key [k] occur anywhere inside the document? *)
Fixpoint has_key (k : string) (j : json) : bool :=
  match j with
  | JArr items => existsb (has_key k) items
  | JObj fields =>
      (fix go (fs : list (string * json)) : bool :=
         match fs with
         | [] => false
         | (k', v) :: fs' => String.eqb k k' || has_key k v || go fs'
         end) fields
  | _ => false
  end.

(** Top-level member access [j.k]; [None] stands for [undefined]. *)
Definition member (k : string) (j : json) : option json :=
  match j with
  | JObj fields =>
      option_map snd (find (fun kv => String.eqb k (fst kv)) fields)
  | _ => None
  end.

(** ** Exceptions, console, world *)

Record exn := mkExn { e_name : string; e_message : string }.

Inductive outcome (A : Type) :=
| Ok (a : A)
| Throw (e : exn).
Arguments Ok {A} a.
Arguments Throw {A} e.

Inductive provider := local | google.

Definition provider_eqb (a b : provider) : bool :=
  match a, b with
  | local, local | google, google => true
  | _, _ => false
  end.

(** A document of the [User] collection. *)
Record user := mkUser {
  u_id : nat;
  u_name : string;
  u_email : string;
  u_password : option string;
  u_googleId : option string;
  u_authProvider : provider;
  u_createdAt : Z
}.

Record attachment := mkAttachment {
  a_filename : string;
  a_path : string;
  a_mimetype : string;
  a_size : Z
}.

(** A document of the [SupportRequest] collection
    ([models/SupportRequest.js], [timestamps: true]). *)
Record supportRequest := mkSupportRequest {
  sr_id : nat;
  sr_subject : string;
  sr_description : string;
  sr_phoneNumber : string;
  sr_email : string;
  sr_attachments : list attachment;
  sr_status : string;
  sr_priority : string;
  sr_userId : option nat;
  sr_createdAt : Z;
  sr_updatedAt : Z
}.

Inductive log_entry :=
| log_error (prefix : string) (e : exn)
| log_info (prefix : string) (args : list json).

Record world := mkWorld {
  users : list user;
  requests : list supportRequest;
  next_id : nat;
  console : list log_entry
}.

Definition empty_world : world := mkWorld [] [] 0 [].

(** What the environment decides during one request: the clock, the salt
    drawn by [bcrypt.genSalt], whether the n-th store call of the request
    is rejected by the driver, the answer of Google's verifier, and the
    unique suffix multer's [filename] callback draws for the n-th file. *)
Record env := mkEnv {
  now_ms : Z;
  salt : string;
  db_fault : nat -> option exn;
  verifyIdToken : string -> outcome (string * string * string);
  uniqueSuffix : nat -> string
}.

(** ** The monad of a [try] block *)

Definition M (A : Type) : Type := world -> outcome A * world.

Definition ret {A} (a : A) : M A := fun w => (Ok a, w).

Definition throw {A} (e : exn) : M A := fun w => (Throw e, w).

Definition bind {A B} (m : M A) (k : A -> M B) : M B :=
  fun w =>
    match m w with
    | (Ok a, w') => k a w'
    | (Throw e, w') => (Throw e, w')
    end.

Definition lift {A} (o : outcome A) : M A := fun w => (o, w).

Declare Scope js_scope.
Delimit Scope js_scope with js.
Notation "x <- m ;; k" := (bind m (fun x => k))
  (at level 100, m at next level, right associativity) : js_scope.
Notation "m ;;; k" := (bind m (fun _ => k))
  (at level 100, right associativity) : js_scope.
Open Scope js_scope.

(** [try { m } catch (error) { h error }] where the handler itself does
    not throw. *)
Definition try_catch {A} (m : M A) (h : exn -> world -> A * world)
  : world -> A * world :=
  fun w =>
    match m w with
    | (Ok a, w') => (a, w')
    | (Throw e, w') => h e w'
    end.

Definition write_console (l : log_entry) (w : world) : world :=
  mkWorld (users w) (requests w) (next_id w) (console w ++ [l]).

Definition console_log (prefix : string) (args : list json) : M unit :=
  fun w => (Ok tt, write_console (log_info prefix args) w).

(** The shape shared by every [catch] block of the auth controller:
    log, then answer with a fixed status and body. *)
Definition caught (prefix : string) (r : response) (e : exn)
  : world -> response * world :=
  fun w => (r, write_console (log_error prefix e) w).

(** ** Strings *)

(** A string of the model stands for a JavaScript string whose code
    units are all below 256, one character per code unit. *)

(** The lower-case form of a code unit below 256: the letters A to Z and
    the capital letters of U+00C0 to U+00DE (all but the sign U+00D7)
    move up by 32. *)
Definition lower_latin1 (c : ascii) : ascii :=
  let n := nat_of_ascii c in
  if (Nat.leb 65 n && Nat.leb n 90)%bool
     || (Nat.leb 192 n && Nat.leb n 222 && negb (Nat.eqb n 215))%bool
  then ascii_of_nat (n + 32) else c.

(** [String.prototype.toLowerCase] on such a string. *)
Fixpoint fold_latin1 (s : string) : string :=
  match s with
  | EmptyString => EmptyString
  | String c s' => String (lower_latin1 c) (fold_latin1 s')
  end.

(** [s.includes(p)] *)
Fixpoint includes (p s : string) : bool :=
  String.prefix p s ||
  match s with
  | EmptyString => false
  | String _ s' => includes p s'
  end.

(** White space and line terminators of ECMAScript among the code
    units below 256: tab, line feed, vertical tab, form feed, carriage
    return, space and no-break space. *)
Definition is_space (c : ascii) : bool :=
  match nat_of_ascii c with
  | 9%nat | 10%nat | 11%nat | 12%nat | 13%nat | 32%nat | 160%nat => true
  | _ => false
  end.

Fixpoint trim_left (s : string) : string :=
  match s with
  | EmptyString => EmptyString
  | String c s' => if is_space c then trim_left s' else s
  end.

Fixpoint trim_right (s : string) : string :=
  match s with
  | EmptyString => EmptyString
  | String c s' =>
      match trim_right s' with
      | EmptyString => if is_space c then EmptyString else String c EmptyString
      | t => String c t
      end
  end.

(** [String.prototype.trim] on such a string. *)
Definition latin1_trim (s : string) : string := trim_right (trim_left s).

(** The string operations of the JavaScript runtime that the handlers
    and the schema setters call: [String.prototype.trim],
    [String.prototype.toLowerCase] and the [length] of a string.  What
    they do to text with code units from 256 on depends on the Unicode
    tables of the runtime, so the code is read with the three of them
    given. *)
Record strings_js := mkStringsJs {
  trim : string -> string;
  toLowerCase : string -> string;
  js_length : string -> nat
}.

(** The three operations on strings whose code units are below 256. *)
Definition latin1_strings : strings_js :=
  mkStringsJs latin1_trim fold_latin1 String.length.

(** A request field is a string or missing; JavaScript's [!x] holds for
    [undefined] and for the empty string.  [present] keeps the truthy
    ones. *)
Definition present (f : option string) : option string :=
  match f with
  | Some EmptyString => None
  | other => other
  end.

Definition falsy (f : option string) : bool :=
  match present f with
  | Some _ => false
  | None => true
  end.

(** ** The [User] model *)

(** The argument of [User.create]. *)
Record newUser := mkNewUser {
  nu_name : string;
  nu_email : string;
  nu_password : option string;
  nu_googleId : option string;
  nu_authProvider : provider
}.

(** Modelled from the spec: the key under which an email is matched.
    [models/User.js] is not part of the sources at hand; the spec has
    emails "case-insensitive for lookup purposes", taken here as the
    lower-case form of the string. *)
Definition email_key (e : string) : string := fold_latin1 e.

Definition same_email (e : string) (u : user) : bool :=
  String.eqb (email_key (u_email u)) (email_key e).

(** The n-th store call of a request: rejected when the driver says so,
    otherwise [op] runs against the collection. *)
Definition db_call {A} (E : env) (n : nat) (op : M A) : M A :=
  fun w =>
    match db_fault E n with
    | Some e => (Throw e, w)
    | None => op w
    end.

(** Modelled from the spec: [User.findByEmail], the Credential Store's
    lookup-by-email ([models/User.js] is missing).  It returns the first
    stored identity whose email matches. *)
Definition findByEmail (E : env) (n : nat) (e : string) : M (option user) :=
  db_call E n (fun w => (Ok (find (same_email e) (users w)), w)).

(** Modelled from the spec: [User.findById], lookup-by-id. *)
Definition findById (E : env) (n : nat) (id : nat) : M (option user) :=
  db_call E n (fun w => (Ok (find (fun u => Nat.eqb (u_id u) id) (users w)), w)).

(** Modelled from the spec: [User.create] ([models/User.js] is missing).
    The name is "required, non-empty", the email "required, unique across
    all identities", with "uniqueness enforced at write time"; the id is
    "assigned at creation" and [createdAt] is the creation timestamp. *)
Definition User_create (E : env) (n : nat) (d : newUser) : M user :=
  if String.eqb (nu_name d) "" then
    throw (mkExn "ValidationError" "User validation failed: name: Path `name` is required.")
  else if String.eqb (nu_email d) "" then
    throw (mkExn "ValidationError" "User validation failed: email: Path `email` is required.")
  else
    db_call E n (fun w =>
      if existsb (same_email (nu_email d)) (users w) then
        (Throw (mkExn "MongoServerError" "E11000 duplicate key error"), w)
      else
        let u := mkUser (next_id w) (nu_name d) (nu_email d) (nu_password d)
                        (nu_googleId d) (nu_authProvider d) (now_ms E) in
        (Ok u, mkWorld (users w ++ [u]) (requests w) (S (next_id w)) (console w))).

(** Modelled from the spec: [user.save()], update-in-place of the
    document with the same id. *)
Definition save_doc (u : user) (l : list user) : list user :=
  map (fun d => if Nat.eqb (u_id d) (u_id u) then u else d) l.

Definition User_save (E : env) (n : nat) (u : user) : M unit :=
  db_call E n (fun w =>
    (Ok tt, mkWorld (save_doc u (users w)) (requests w) (next_id w) (console w))).

(** ** jsonwebtoken *)

(** The value of a run of decimal digits and what follows it. *)
Fixpoint read_digits (acc : Z) (count : nat) (s : string) : Z * nat * string :=
  match s with
  | String c rest =>
      let n := nat_of_ascii c in
      if (Nat.leb 48 n && Nat.leb n 57)%bool
      then read_digits (10 * acc + Z.of_nat (n - 48)) (S count) rest
      else (acc, count, s)
  | EmptyString => (acc, count, s)
  end.

Fixpoint skip_blanks (s : string) : string :=
  match s with
  | String " " rest => skip_blanks rest
  | _ => s
  end.

(** The units of the [ms] package, in milliseconds. *)
Definition unit_ms (u : string) : option Z :=
  if existsb (String.eqb u) [""; "ms"; "msec"; "msecs"; "millisecond"; "milliseconds"]
  then Some 1
  else if existsb (String.eqb u) ["s"; "sec"; "secs"; "second"; "seconds"]
  then Some 1000
  else if existsb (String.eqb u) ["m"; "min"; "mins"; "minute"; "minutes"]
  then Some 60000
  else if existsb (String.eqb u) ["h"; "hr"; "hrs"; "hour"; "hours"]
  then Some 3600000
  else if existsb (String.eqb u) ["d"; "day"; "days"]
  then Some 86400000
  else if existsb (String.eqb u) ["w"; "week"; "weeks"]
  then Some 604800000
  else if existsb (String.eqb u) ["y"; "yr"; "yrs"; "year"; "years"]
  then Some 31557600000
  else None.

(** [ms(str)] as a fraction of milliseconds (numerator, denominator):
    an optional sign, digits with an optional decimal part, blanks, an
    optional unit; [None] where [ms] answers [undefined]. *)
Definition ms (str : string) : option (Z * Z) :=
  if Nat.ltb 100 (String.length str) then None else
  let '(sign, body) :=
    match str with
    | String "-" rest => (-1, rest)
    | _ => (1, str)
    end in
  let '(whole, whole_digits, after_whole) := read_digits 0 0 body in
  let parsed :=
    match after_whole with
    | String "." rest =>
        let '(all, frac_digits, after_frac) := read_digits whole 0 rest in
        match frac_digits with
        | O => None
        | _ => Some (all, 10 ^ Z.of_nat frac_digits, after_frac)
        end
    | _ =>
        match whole_digits with
        | O => None
        | _ => Some (whole, 1, after_whole)
        end
    end in
  match parsed with
  | None => None
  | Some (n, scale, rest) =>
      match unit_ms (fold_latin1 (skip_blanks rest)) with
      | Some u => Some (sign * n * u, scale)
      | None => None
      end
  end.

(** [timespan(expiresIn, iat)] for a string: [Math.floor(iat + ms / 1000)],
    in exact arithmetic. *)
Definition timespan (expiresIn : string) (iat : Z) : option Z :=
  match ms expiresIn with
  | Some (num, den) => Some (iat + num / (den * 1000))
  | None => None
  end.

(** The double-quote character. *)
Definition dq : string := String (ascii_of_nat 34) EmptyString.

(** [jwt.sign({ id }, secret, { expiresIn })] at time [now]
    (milliseconds): the secret must have a value (an unset variable and
    the empty string are both refused), [iat] is the clock in whole
    seconds and [exp] the time span after it. *)
Definition jwt_sign (id : nat) (secret : string) (expiresIn : string) (now : Z)
  : outcome jwt :=
  if String.eqb secret "" then
    Throw (mkExn "Error" "secretOrPrivateKey must have a value")
  else
    let iat := now / 1000 in
    match timespan expiresIn iat with
    | Some exp => Ok (jwt_signed (mkClaims id iat exp) secret)
    | None =>
        Throw (mkExn "Error"
                 (dq ++ "expiresIn" ++ dq
                  ++ " should be a number of seconds or string representing a timespan eg: "
                  ++ dq ++ "1d" ++ dq ++ ", " ++ dq ++ "20h" ++ dq ++ ", 60"))
    end.

(** The number of dot-separated segments of a string. *)
Fixpoint segments (raw : string) : nat :=
  match raw with
  | EmptyString => 1
  | String "." rest => S (segments rest)
  | String _ rest => segments rest
  end.

(** [jwt.verify(token, secret)]: the string must be there, have three
    segments and decode; a key must be configured; then the signature,
    then the expiry ([clockTimestamp >= payload.exp]). *)
Definition jwt_verify (t : jwt) (secret : string) (now : Z) : outcome claims :=
  match t with
  | jwt_garbage raw =>
      if String.eqb raw "" then
        Throw (mkExn "JsonWebTokenError" "jwt must be provided")
      else if Nat.eqb (segments raw) 3 then
        Throw (mkExn "JsonWebTokenError" "invalid token")
      else Throw (mkExn "JsonWebTokenError" "jwt malformed")
  | jwt_signed payload key =>
      if String.eqb secret "" then
        Throw (mkExn "JsonWebTokenError" "secret or public key must be provided")
      else if negb (String.eqb key secret) then
        Throw (mkExn "JsonWebTokenError" "invalid signature")
      else if c_exp payload <=? now / 1000 then
        Throw (mkExn "TokenExpiredError" "jwt expired")
      else Ok payload
  end.

(** [!token] on the body field. *)
Definition present_token (t : option jwt) : option jwt :=
  match t with
  | Some (jwt_garbage EmptyString) => None
  | other => other
  end.

(** ** controllers/authController.js *)

Definition fail_body (message : string) : json :=
  JObj [("success", JBool false); ("message", JStr message)].

Definition id_json (id : nat) : json := JNum (Z.of_nat id).

(** [{ id: user._id, name: user.name, email: user.email }] *)
Definition user_summary (u : user) : json :=
  JObj [("id", id_json (u_id u)); ("name", JStr (u_name u));
        ("email", JStr (u_email u))].

Section Controllers.

(** [process.env.JWT_SECRET]; the empty string also stands for a
    variable that is not set. *)
Variable JWT_SECRET : string.

(** bcryptjs: [bcrypt.hash(password, salt)] and, on two strings,
    [bcrypt.compare(password, hash)]. *)
Variable bcrypt_hash : string -> string -> string.
Variable bcrypt_compare : string -> string -> bool.

(** [bcrypt.compare] rejects when the stored hash is not a string. *)
Definition bcrypt_compare_js (password : string) (hash : option string)
  : outcome bool :=
  match hash with
  | Some h => Ok (bcrypt_compare password h)
  | None => Throw (mkExn "Error" "Illegal arguments: string, undefined")
  end.

Definition generateToken (E : env) (userId : nat) : outcome jwt :=
  jwt_sign userId JWT_SECRET "30d" (now_ms E).

Definition auth_ok (message : string) (u : user) (token : jwt) : json :=
  JObj [("success", JBool true); ("message", JStr message);
        ("data", JObj [("user", user_summary u); ("token", JTok token)])].

Definition signup (E : env) (name email password : option string)
  : world -> response * world :=
  try_catch
    (match present name, present email, present password with
     | Some name, Some email, Some password =>
         existingUser <- findByEmail E 0 email ;;
         match existingUser with
         | Some _ =>
             ret (status_json 400 (fail_body "User already exists with this email"))
         | None =>
             let hashedPassword := bcrypt_hash password (salt E) in
             user <- User_create E 1
                       (mkNewUser name email (Some hashedPassword) None local) ;;
             token <- lift (generateToken E (u_id user)) ;;
             ret (status_json 201 (auth_ok "User created successfully" user token))
         end
     | _, _, _ =>
         ret (status_json 400 (fail_body "Please provide all required fields"))
     end)
    (caught "Signup error:" (status_json 500 (fail_body "Error creating user"))).

Definition login (E : env) (email password : option string)
  : world -> response * world :=
  try_catch
    (match present email, present password with
     | Some email, Some password =>
         found <- findByEmail E 0 email ;;
         match found with
         | None => ret (status_json 401 (fail_body "Invalid credentials"))
         | Some user =>
             if provider_eqb (u_authProvider user) google && falsy (u_password user)
             then ret (status_json 401 (fail_body "Please sign in with Google"))
             else
               isPasswordValid <- lift (bcrypt_compare_js password (u_password user)) ;;
               if negb isPasswordValid
               then ret (status_json 401 (fail_body "Invalid credentials"))
               else
                 token <- lift (generateToken E (u_id user)) ;;
                 ret (res_json (auth_ok "Login successful" user token))
         end
     | _, _ =>
         ret (status_json 400 (fail_body "Please provide email and password"))
     end)
    (caught "Login error:" (status_json 500 (fail_body "Error logging in"))).

(** The in-place link of a local account:
    [user.googleId = googleId; user.authProvider = 'google']. *)
Definition link_google (u : user) (googleId : string) : user :=
  mkUser (u_id u) (u_name u) (u_email u) (u_password u) (Some googleId)
         google (u_createdAt u).

Definition googleAuth (E : env) (credential : option string)
  : world -> response * world :=
  try_catch
    (match present credential with
     | None => ret (status_json 400 (fail_body "Google credential is required"))
     | Some credential =>
         payload <- lift (verifyIdToken E credential) ;;
         let '(email, name, googleId) := payload in
         found <- findByEmail E 0 email ;;
         user <- match found with
                 | None =>
                     User_create E 1 (mkNewUser name email None (Some googleId) google)
                 | Some user =>
                     if provider_eqb (u_authProvider user) local then
                       let linked := link_google user googleId in
                       User_save E 1 linked ;;; ret linked
                     else ret user
                 end ;;
         token <- lift (generateToken E (u_id user)) ;;
         ret (res_json (auth_ok "Google authentication successful" user token))
     end)
    (caught "Google auth error:"
            (status_json 500 (fail_body "Error with Google authentication"))).

Definition verifyToken (E : env) (token : option jwt)
  : world -> response * world :=
  try_catch
    (match present_token token with
     | None => ret (status_json 400 (fail_body "Token is required"))
     | Some token =>
         decoded <- lift (jwt_verify token JWT_SECRET (now_ms E)) ;;
         found <- findById E 0 (c_id decoded) ;;
         match found with
         | None => ret (status_json 401 (fail_body "Invalid token"))
         | Some user =>
             ret (res_json (JObj [("success", JBool true);
                                  ("data", JObj [("user", user_summary user)])]))
         end
     end)
    (fun _ w => (status_json 401 (fail_body "Invalid or expired token"), w)).

(** [req.user.id] was put on the request by the [protect] middleware. *)
Definition getUserProfile (E : env) (req_user_id : nat)
  : world -> response * world :=
  try_catch
    (found <- findById E 0 req_user_id ;;
     match found with
     | None => ret (status_json 404 (fail_body "User not found"))
     | Some user =>
         ret (res_json
                (JObj [("success", JBool true);
                       ("data",
                        JObj [("user",
                               JObj [("id", id_json (u_id user));
                                     ("name", JStr (u_name user));
                                     ("email", JStr (u_email user));
                                     ("createdAt", JNum (u_createdAt user))])])]))
     end)
    (caught "Get profile error:"
            (status_json 500 (fail_body "Error fetching user profile"))).

End Controllers.

(** ** controllers/supportController.js *)

(** A file part of the multipart request, as multer sees it. *)
Record filePart := mkFilePart {
  f_fieldname : string;
  f_originalname : string;
  f_mimetype : string;
  f_size : Z
}.

(** An entry of [req.files] after [diskStorage] wrote the file. *)
Record stored := mkStored { st_file : filePart; st_path : string }.

(** The argument of [SupportRequest.create]. *)
Record newSupportRequest := mkNewSupportRequest {
  ns_subject : string;
  ns_description : string;
  ns_phoneNumber : string;
  ns_email : string;
  ns_attachments : list attachment;
  ns_userId : option nat
}.

Section SupportModel.

Variable JS : strings_js.

(** The value of each path after the schema's setters ran ([trim] on
    subject, description and phone number; [trim] and [lowercase] on the
    email). *)
Definition set_subject (d : newSupportRequest) : string := trim JS (ns_subject d).
Definition set_description (d : newSupportRequest) : string :=
  trim JS (ns_description d).
Definition set_phoneNumber (d : newSupportRequest) : string :=
  trim JS (ns_phoneNumber d).
Definition set_email (d : newSupportRequest) : string :=
  toLowerCase JS (trim JS (ns_email d)).

(** Schema validation of [models/SupportRequest.js] on the values the
    setters left: one entry per failing path. *)
Definition supportRequest_errors (d : newSupportRequest) : list string :=
  (if String.eqb (set_subject d) "" then ["subject: Subject is required"]
   else if Nat.ltb 200 (js_length JS (set_subject d))
        then ["subject: Subject cannot exceed 200 characters"]
        else [])
  ++ (if String.eqb (set_description d) ""
      then ["description: Description is required"] else [])
  ++ (if String.eqb (set_email d) ""
      then ["email: Path `email` is required."] else []).

(** [SupportRequest.create]: validate, then insert with the schema's
    defaults and timestamps. *)
Definition SupportRequest_create (E : env) (n : nat) (d : newSupportRequest)
  : M supportRequest :=
  match supportRequest_errors d with
  | [] =>
      db_call E n (fun w =>
        let doc := mkSupportRequest (next_id w) (set_subject d)
                     (set_description d) (set_phoneNumber d)
                     (set_email d) (ns_attachments d)
                     "pending" "medium" (ns_userId d) (now_ms E) (now_ms E) in
        (Ok doc,
         mkWorld (users w) (requests w ++ [doc]) (S (next_id w))
                 (console w)))
  | errors =>
      throw (mkExn "ValidationError"
               ("SupportRequest validation failed: " ++ String.concat ", " errors))
  end.

End SupportModel.

Definition field_json (f : option string) : json :=
  match f with
  | Some s => JStr s
  | None => JNull
  end.

Definition attachment_json (a : attachment) : json :=
  JObj [("filename", JStr (a_filename a)); ("path", JStr (a_path a));
        ("mimetype", JStr (a_mimetype a)); ("size", JNum (a_size a))].

Definition stored_json (s : stored) : json :=
  JObj [("fieldname", JStr (f_fieldname (st_file s)));
        ("originalname", JStr (f_originalname (st_file s)));
        ("mimetype", JStr (f_mimetype (st_file s)));
        ("path", JStr (st_path s));
        ("size", JNum (f_size (st_file s)))].

(** The stored document as [res.json] serialises it (sub-document ids
    and the version key left out). *)
Definition supportRequest_json (d : supportRequest) : json :=
  JObj [("_id", id_json (sr_id d)); ("subject", JStr (sr_subject d));
        ("description", JStr (sr_description d));
        ("phoneNumber", JStr (sr_phoneNumber d));
        ("email", JStr (sr_email d));
        ("attachments", JArr (map attachment_json (sr_attachments d)));
        ("status", JStr (sr_status d)); ("priority", JStr (sr_priority d));
        ("userId", match sr_userId d with Some i => id_json i | None => JNull end);
        ("createdAt", JNum (sr_createdAt d));
        ("updatedAt", JNum (sr_updatedAt d))].

(** The alternatives of [/jpeg|jpg|png|gif|pdf|doc|docx|txt/]. *)
Definition allowedTypes : list string :=
  ["jpeg"; "jpg"; "png"; "gif"; "pdf"; "doc"; "docx"; "txt"].

(** [allowedTypes.test(s)]: the pattern is not anchored, so it holds as
    soon as one alternative occurs somewhere in [s]. *)
Definition allowedTypes_test (s : string) : bool :=
  existsb (fun alt => includes alt s) allowedTypes.

(** [limits.fileSize] *)
Definition fileSize : Z := 5 * 1024 * 1024.

(** The second argument of [.array('attachments', 5)]. *)
Definition maxCount : nat := 5.

Section Support.

Variable JS : strings_js.

(** Node's [path.extname]. *)
Variable path_extname : string -> string.

(** Whether the multipart parser under multer counts a file of exactly
    [fileSize] bytes as over the limit: busboy 1.x (under multer
    1.4.5-lts) does, busboy 0.x (under multer up to 1.4.4) does not.
    The sources pin no version of multer. *)
Variable full_is_over : bool.

Definition fileFilter (file : filePart) : outcome bool :=
  let extname :=
    allowedTypes_test (toLowerCase JS (path_extname (f_originalname file))) in
  let mimetype := allowedTypes_test (f_mimetype file) in
  if extname && mimetype then Ok true
  else Throw (mkExn "Error" "Only images, PDFs, and documents are allowed!").

(** [storage]: the [destination] joined with the [filename] callback's
    result for the i-th file. *)
Definition storage (E : env) (i : nat) (file : filePart) : string :=
  "uploads/support" ++ "/" ++
  ("support-" ++ uniqueSuffix E i ++ path_extname (f_originalname file)).

(** multer's [.array('attachments', 5)] over the file parts in order of
    arrival; [left] is the number of files the field may still take.
    A part in another field, or one part too many, is an unexpected
    file; then the filter runs; then the size limit applies while the
    file is written: the stream is cut, and the upload refused, as soon
    as the file reaches [fileSize] bytes. *)
Fixpoint upload_array (E : env) (left i : nat) (files : list filePart)
  : outcome (list stored) :=
  match files with
  | [] => Ok []
  | file :: rest =>
      match (if String.eqb (f_fieldname file) "attachments" then left else O) with
      | O => Throw (mkExn "MulterError" "Unexpected field")
      | S left' =>
          match fileFilter file with
          | Throw e => Throw e
          | Ok _ =>
              if (fileSize <? f_size file)
                 || (full_is_over && (f_size file =? fileSize))
              then Throw (mkExn "MulterError" "File too large")
              else
                match upload_array E left' (S i) rest with
                | Throw e => Throw e
                | Ok done => Ok (mkStored file (storage E i file) :: done)
                end
          end
      end
  end.

Definition upload (E : env) (files : list filePart) : outcome (list stored) :=
  upload_array E maxCount 0 files.

Definition createSupportRequest (E : env) (files : list filePart)
    (subject description phoneNumber email : option string)
    (req_user : option nat)
  : world -> response * world :=
  fun w =>
    match upload E files with
    | Throw err =>
        if String.eqb (e_name err) "MulterError" then
          (status_json 400 (fail_body ("File upload error: " ++ e_message err)), w)
        else
          (status_json 400 (fail_body (e_message err)), w)
    | Ok req_files =>
        try_catch
          (console_log "Received data:"
             [JObj [("subject", field_json subject);
                    ("description", field_json description);
                    ("phoneNumber", field_json phoneNumber);
                    ("email", field_json email)]] ;;;
           console_log "Files:" [JArr (map stored_json req_files)] ;;;
           match present subject, present description, present email with
           | Some subject', Some description', Some email' =>
               let attachments :=
                 map (fun file =>
                        mkAttachment (f_originalname (st_file file)) (st_path file)
                                     (f_mimetype (st_file file)) (f_size (st_file file)))
                     req_files in
               supportRequest <-
                 SupportRequest_create JS E 0
                   (mkNewSupportRequest subject' description'
                      (match present phoneNumber with Some p => p | None => "" end)
                      email' attachments req_user) ;;
               ret (status_json 201
                      (JObj [("success", JBool true);
                             ("message", JStr "Support request submitted successfully");
                             ("data", supportRequest_json supportRequest)]))
           | _, _, _ =>
               console_log "Validation failed - missing fields" [] ;;;
               ret (status_json 400
                      (JObj [("success", JBool false);
                             ("message", JStr "Subject, description, and email are required");
                             ("received",
                              JObj [("subject", JBool (negb (falsy subject)));
                                    ("description", JBool (negb (falsy description)));
                                    ("email", JBool (negb (falsy email)))])]))
           end)
          (fun error w' =>
             (status_json 500
                (JObj [("success", JBool false);
                       ("message", JStr "Failed to submit support request");
                       ("error", JStr (e_message error))]),
              write_console (log_error "Error creating support request:" error) w'))
          w
    end.

End Support.

(** The last dot and what follows it; enough of [path.extname] for the
    file names used in the concrete runs below. *)
Fixpoint demo_extname (s : string) : string :=
  match s with
  | EmptyString => EmptyString
  | String c s' =>
      match demo_extname s' with
      | EmptyString => if Ascii.eqb c "." then s else EmptyString
      | ext => ext
      end
  end.

(** ** routes/auth.js *)

Inductive request :=
| Signup (name email password : option string)
| Login (email password : option string)
| GoogleAuth (credential : option string)
| VerifyToken (token : option jwt)
| GetUserProfile (req_user_id : nat).

Section Router.

Variable JWT_SECRET : string.
Variable bcrypt_hash : string -> string -> string.
Variable bcrypt_compare : string -> string -> bool.

Definition handle (E : env) (r : request) : world -> response * world :=
  match r with
  | Signup name email password =>
      signup JWT_SECRET bcrypt_hash E name email password
  | Login email password => login JWT_SECRET bcrypt_compare E email password
  | GoogleAuth credential => googleAuth JWT_SECRET E credential
  | VerifyToken token => verifyToken JWT_SECRET E token
  | GetUserProfile id => getUserProfile E id
  end.

(** The store after a sequence of requests, each served to completion
    in its own environment. *)
Fixpoint serve (trace : list (env * request)) (w : world) : world :=
  match trace with
  | [] => w
  | (E, r) :: rest => serve rest (snd (handle E r w))
  end.

End Router.

(** No two stored identities share an email. *)
Definition unique_emails (w : world) : Prop := NoDup (map u_email (users w)).

(** The invariant that carries it: lookup keys and ids are pairwise
    distinct and every id is below the next one to be assigned. *)
Definition key_of (u : user) : string := email_key (u_email u).

Record store_ok (w : world) : Prop := mkStoreOk {
  ok_keys : NoDup (map key_of (users w));
  ok_ids : NoDup (map u_id (users w));
  ok_fresh : Forall (fun u => (u_id u < next_id w)%nat) (users w);
  ok_emails : Forall (fun u => u_email u <> "") (users w)
}.

(** What one request may do to the [User] collection: nothing, insert
    one document under the next id and an unused lookup key, or replace a
    stored local document by its linked copy. *)
Inductive users_step (w w' : world) : Prop :=
| step_same :
    users w' = users w -> next_id w' = next_id w -> users_step w w'
| step_created (u : user) :
    users w' = (users w ++ [u])%list -> u_id u = next_id w ->
    next_id w' = S (next_id w) -> u_email u <> "" ->
    existsb (same_email (u_email u)) (users w) = false ->
    users_step w w'
| step_linked (u : user) (sub : string) :
    In u (users w) -> users w' = save_doc (link_google u sub) (users w) ->
    next_id w' = next_id w -> users_step w w'.


(** The fields a caller must never see, under the names of the schema
    and under those of the data model. *)
Definition secret_keys : list string :=
  ["password"; "googleId"; "passwordHash"; "federatedSubjectId"].

Definition leaks (j : json) : bool := existsb (fun k => has_key k j) secret_keys.

(** ** The error taxonomy of the specification *)

(** The kinds of failure the specification tells apart, with the status
    codes it gives them. *)
Inductive error_kind :=
| ValidationError
| AuthenticationError
| NotFoundError
| UpstreamError.

Definition error_kind_of (r : response) : option error_kind :=
  match status r with
  | 400 => Some ValidationError
  | 401 => Some AuthenticationError
  | 404 => Some NotFoundError
  | 500 | 503 => Some UpstreamError
  | _ => None
  end.

(** ** Failing collaborators *)

(** The fixed message and the console prefix of each operation's
    [catch] block ([verifyToken] answers 401 from its [catch] and logs
    nothing). *)
Definition upstream_message (r : request) : string :=
  match r with
  | Signup _ _ _ => "Error creating user"
  | Login _ _ => "Error logging in"
  | GoogleAuth _ => "Error with Google authentication"
  | VerifyToken _ => "Invalid or expired token"
  | GetUserProfile _ => "Error fetching user profile"
  end.

Definition log_prefix (r : request) : string :=
  match r with
  | Signup _ _ _ => "Signup error:"
  | Login _ _ => "Login error:"
  | GoogleAuth _ => "Google auth error:"
  | VerifyToken _ => ""
  | GetUserProfile _ => "Get profile error:"
  end.

(** The exception of the first store or network call that fails among
    the calls a request makes on the store [w]: the lookup, then the
    [create] or [save] that follows it, and before them Google's
    verifier. *)
Definition failure_of (E : env) (r : request) (w : world) : option exn :=
  match r with
  | Signup name email password =>
      match present name, present email, present password with
      | Some _, Some e, Some _ =>
          match db_fault E 0 with
          | Some x => Some x
          | None =>
              match find (same_email e) (users w) with
              | Some _ => None
              | None => db_fault E 1
              end
          end
      | _, _, _ => None
      end
  | Login email password =>
      match present email, present password with
      | Some _, Some _ => db_fault E 0
      | _, _ => None
      end
  | GoogleAuth credential =>
      match present credential with
      | Some c =>
          match verifyIdToken E c with
          | Throw x => Some x
          | Ok (email, name, _) =>
              match db_fault E 0 with
              | Some x => Some x
              | None =>
                  match find (same_email email) (users w) with
                  | None =>
                      if (String.eqb name "" || String.eqb email "")%bool
                      then None else db_fault E 1
                  | Some u =>
                      if provider_eqb (u_authProvider u) local
                      then db_fault E 1 else None
                  end
              end
          end
      | None => None
      end
  | VerifyToken _ => None
  | GetUserProfile _ => db_fault E 0
  end.

(** Two environments in which the same calls fail, with whatever
    exceptions: same clock and salt, the store refuses the same calls,
    and Google's verifier fails on the same assertions and agrees on the
    others. *)
Definition same_failures (E1 E2 : env) : Prop :=
  now_ms E1 = now_ms E2 /\ salt E1 = salt E2
  /\ (forall n, db_fault E1 n = None <-> db_fault E2 n = None)
  /\ (forall c,
        match verifyIdToken E1 c, verifyIdToken E2 c with
        | Ok p1, Ok p2 => p1 = p2
        | Throw _, Throw _ => True
        | _, _ => False
        end).

Definition is_verify (r : request) : bool :=
  match r with
  | VerifyToken _ => true
  | _ => false
  end.

(** The store is unreachable for the whole request. *)
Definition refused : exn :=
  mkExn "MongoNetworkError" "connect ECONNREFUSED 10.0.0.5:27017".

Definition down_env : env :=
  mkEnv 1700000000000 "s1" (fun _ => Some refused)
        (fun _ => Ok ("ann@x.com", "Ann", "sub-42"))
        (fun _ => "1700000000000-3").

(** The store answers the lookup and refuses the write that follows. *)
Definition write_refused_env : env :=
  mkEnv 1700000000000 "s1"
        (fun n => match n with O => None | _ => Some refused end)
        (fun _ => Ok ("ann@x.com", "Ann", "sub-42"))
        (fun _ => "1700000000000-4").

(** The store fails like [down_env], with another message. *)
Definition timeout_env : env :=
  mkEnv 1700000000000 "s1"
        (fun _ => Some (mkExn "MongooseError" "Operation `users.findOne()` buffering timed out after 10000ms"))
        (fun _ => Ok ("ann@x.com", "Ann", "sub-42"))
        (fun _ => "1700000000000-5").

(** ** Upload limits *)

(** A file part within the limits: at most [fileSize] bytes, extension
    and mimetype passing the pattern. *)
Definition acceptable (JS : strings_js) (path_extname : string -> string)
    (file : filePart) : bool :=
  (f_size file <=? fileSize)
  && allowedTypes_test (toLowerCase JS (path_extname (f_originalname file)))
  && allowedTypes_test (f_mimetype file).

Definition photo : filePart :=
  mkFilePart "attachments" "screen.PNG" "image/png" 120000.
Definition huge_photo : filePart :=
  mkFilePart "attachments" "scan.png" "image/png" 5242881.
Definition full_photo : filePart :=
  mkFilePart "attachments" "scan.png" "image/png" 5242880.

(** ** Login failures *)

(** The three ways a well-formed login is refused, read off the store. *)
Inductive login_failure := NoIdentity | FederatedOnly | BadPassword.

Definition login_failure_of (bcrypt_compare : string -> string -> bool)
    (w : world) (email password : string) : option login_failure :=
  match find (same_email email) (users w) with
  | None => Some NoIdentity
  | Some u =>
      match u_authProvider u, present (u_password u) with
      | google, None => Some FederatedOnly
      | _, _ =>
          match u_password u with
          | Some h => if bcrypt_compare password h then None else Some BadPassword
          | None => None
          end
      end
  end.

Definition login_failure_message (c : login_failure) : string :=
  match c with
  | FederatedOnly => "Please sign in with Google"
  | NoIdentity | BadPassword => "Invalid credentials"
  end.

(** A toy hasher and a few stored identities for concrete runs. *)
Definition demo_hash (password salt : string) : string := salt ++ "$" ++ password.
Definition demo_compare (password hash : string) : bool :=
  String.eqb hash ("s1$" ++ password).

Definition demo_env : env :=
  mkEnv 1700000000000 "s1" (fun _ => None)
        (fun c => if String.eqb c "good-assertion"
                  then Ok ("ann@x.com", "Ann", "sub-42")
                  else Throw (mkExn "Error" "Wrong number of segments in token"))
        (fun _ => "1700000000000-1").

(** Google vouches for bob's email under a subject id that is not the
    stored one. *)
Definition relogin_env : env :=
  mkEnv 1700000000000 "s1" (fun _ => None)
        (fun _ => Ok ("bob@x.com", "Bob", "another-subject"))
        (fun _ => "1700000000000-2").

Definition ann : user :=
  mkUser 0 "Ann" "ann@x.com" (Some "s1$secret123") None local 1690000000000.
Definition bob : user :=
  mkUser 1 "Bob" "bob@x.com" None (Some "sub-7") google 1690000000001.
Definition demo_world : world := mkWorld [ann; bob] [] 2 [].

(** ** The rest of controllers/supportController.js *)

(** The [catch] block shared by the support handlers. *)
Definition support_caught (prefix message : string) (error : exn)
  : world -> response * world :=
  fun w =>
    (status_json 500
       (JObj [("success", JBool false); ("message", JStr message);
              ("error", JStr (e_message error))]),
     write_console (log_error prefix error) w).

Definition has_id (id : nat) (d : supportRequest) : bool := Nat.eqb (sr_id d) id.

(** [SupportRequest.findById(id)] for a well-formed id. *)
Definition SupportRequest_findById (E : env) (n : nat) (id : nat)
  : M (option supportRequest) :=
  db_call E n (fun w => (Ok (find (has_id id) (requests w)), w)).

(** [.populate('userId', 'name email')]: the referenced user's id, name
    and email, or [null] when there is no such user. *)
Definition populated_user (w : world) (d : supportRequest) : json :=
  match sr_userId d with
  | None => JNull
  | Some id =>
      match find (fun u => Nat.eqb (u_id u) id) (users w) with
      | Some u => JObj [("_id", id_json (u_id u)); ("name", JStr (u_name u));
                        ("email", JStr (u_email u))]
      | None => JNull
      end
  end.

Definition populated_json (w : world) (d : supportRequest) : json :=
  JObj [("_id", id_json (sr_id d)); ("subject", JStr (sr_subject d));
        ("description", JStr (sr_description d));
        ("phoneNumber", JStr (sr_phoneNumber d));
        ("email", JStr (sr_email d));
        ("attachments", JArr (map attachment_json (sr_attachments d)));
        ("status", JStr (sr_status d)); ("priority", JStr (sr_priority d));
        ("userId", populated_user w d);
        ("createdAt", JNum (sr_createdAt d));
        ("updatedAt", JNum (sr_updatedAt d))].

Definition refers_to_user (d : supportRequest) : bool :=
  match sr_userId d with
  | Some _ => true
  | None => false
  end.

(** The populate step is one more store call, made only when some
    document of the result refers to a user. *)
Definition populate (E : env) (n : nat) (docs : list supportRequest)
  : M (list json) :=
  if existsb refers_to_user docs
  then db_call E n (fun w => (Ok (map (populated_json w) docs), w))
  else fun w => (Ok (map (populated_json w) docs), w).

Definition populate_one (E : env) (n : nat) (d : supportRequest) : M json :=
  if refers_to_user d
  then db_call E n (fun w => (Ok (populated_json w d), w))
  else fun w => (Ok (populated_json w d), w).

(** [enum] of the [status] and [priority] paths of the schema. *)
Definition status_enum : list string :=
  ["pending"; "in-progress"; "resolved"; "closed"].
Definition priority_enum : list string := ["low"; "medium"; "high"].

Definition in_enum (values : list string) (v : string) : bool :=
  existsb (String.eqb v) values.

Definition getSupportRequest (E : env) (id : nat) : world -> response * world :=
  try_catch
    (found <- SupportRequest_findById E 0 id ;;
     match found with
     | None => ret (status_json 404 (fail_body "Support request not found"))
     | Some supportRequest =>
         populated <- populate_one E 1 supportRequest ;;
         ret (status_json 200
                (JObj [("success", JBool true); ("data", populated)]))
     end)
    (support_caught "Error fetching support request:"
                    "Failed to fetch support request").

(** Update validators ([runValidators: true]) on the two paths of the
    update, one entry per failing path. *)
Definition update_errors (status priority : string) : list string :=
  (if in_enum priority_enum priority then []
   else ["priority: `" ++ priority ++ "` is not a valid enum value for path `priority`."])
  ++ (if in_enum status_enum status then []
      else ["status: `" ++ status ++ "` is not a valid enum value for path `status`."]).

Definition set_status (status priority : string) (now : Z) (d : supportRequest)
  : supportRequest :=
  mkSupportRequest (sr_id d) (sr_subject d) (sr_description d) (sr_phoneNumber d)
    (sr_email d) (sr_attachments d) status priority (sr_userId d)
    (sr_createdAt d) now.

(** [SupportRequest.findByIdAndUpdate(id, { status, priority },
    { new: true, runValidators: true })]: validate, then update the
    document in place (with its [updatedAt]) and return the new
    version. *)
Definition SupportRequest_findByIdAndUpdate (E : env) (n : nat) (id : nat)
    (status priority : string) : M (option supportRequest) :=
  match update_errors status priority with
  | [] =>
      db_call E n (fun w =>
        (Ok (option_map (set_status status priority (now_ms E))
               (find (has_id id) (requests w))),
         mkWorld (users w)
           (map (fun d => if has_id id d
                          then set_status status priority (now_ms E) d else d)
                (requests w))
           (next_id w) (console w)))
  | errors =>
      throw (mkExn "ValidationError"
               ("Validation failed: " ++ String.concat ", " errors))
  end.

(** The body carries both [status] and [priority] as strings. *)
Definition updateSupportRequestStatus (E : env) (id : nat)
    (status priority : string) : world -> response * world :=
  try_catch
    (updated <- SupportRequest_findByIdAndUpdate E 0 id status priority ;;
     match updated with
     | None => ret (status_json 404 (fail_body "Support request not found"))
     | Some supportRequest =>
         ret (status_json 200
                (JObj [("success", JBool true);
                       ("message", JStr "Support request updated successfully");
                       ("data", supportRequest_json supportRequest)]))
     end)
    (support_caught "Error updating support request:"
                    "Failed to update support request").

(** [fs.unlinkSync(p)] on the set of existing paths. *)
Definition unlink (p : string) (disk : list string) : list string :=
  filter (fun q => negb (String.eqb q p)) disk.

(** The [forEach] over the attachments: a file that exists is unlinked;
    [unlink_fault] says for which paths the file system refuses, which
    ends the loop with the exception. *)
Fixpoint unlink_attachments (unlink_fault : string -> option exn)
    (attachments : list attachment) (disk : list string)
  : outcome unit * list string :=
  match attachments with
  | [] => (Ok tt, disk)
  | a :: rest =>
      if existsb (String.eqb (a_path a)) disk then
        match unlink_fault (a_path a) with
        | Some e => (Throw e, disk)
        | None => unlink_attachments unlink_fault rest (unlink (a_path a) disk)
        end
      else unlink_attachments unlink_fault rest disk
  end.

(** [supportRequest.deleteOne()] *)
Definition SupportRequest_deleteOne (E : env) (n : nat) (id : nat) : M unit :=
  db_call E n (fun w =>
    (Ok tt,
     mkWorld (users w) (filter (fun d => negb (has_id id d)) (requests w))
             (next_id w) (console w))).

(** [deleteSupportRequest] threads the disk beside the store. *)
Definition deleteSupportRequest (E : env) (unlink_fault : string -> option exn)
    (id : nat) (w : world) (disk : list string)
  : response * world * list string :=
  let failed error w' disk' :=
    (support_caught "Error deleting support request:"
                    "Failed to delete support request" error w', disk') in
  match SupportRequest_findById E 0 id w with
  | (Throw error, w') => failed error w' disk
  | (Ok None, w') =>
      (status_json 404 (fail_body "Support request not found"), w', disk)
  | (Ok (Some supportRequest), w') =>
      match unlink_attachments unlink_fault (sr_attachments supportRequest) disk with
      | (Throw error, disk') => failed error w' disk'
      | (Ok _, disk') =>
          match SupportRequest_deleteOne E 1 (sr_id supportRequest) w' with
          | (Throw error, w'') => failed error w'' disk'
          | (Ok _, w'') =>
              (status_json 200
                 (JObj [("success", JBool true);
                        ("message", JStr "Support request deleted successfully")]),
               w'', disk')
          end
      end
  end.

(** A numeric query parameter reaches the handler as a string.
    [read_int] is the integer it reads as under JavaScript's numeric
    coercion, for the plain forms: the empty string (zero) and an
    optional sign before decimal digits, up to 2^53.  For every other
    string (blanks, fractions, exponents, other bases, words) it is
    [None]: the arithmetic on such values is not followed here. *)
Definition read_int (raw : string) : option Z :=
  let unsigned (s : string) : option Z :=
    match read_digits 0 0 s with
    | (n, S _, EmptyString) => if n <=? 2 ^ 53 then Some n else None
    | _ => None
    end in
  match raw with
  | EmptyString => Some 0
  | String "-" rest => option_map Z.opp (unsigned rest)
  | String "+" rest => unsigned rest
  | _ => unsigned raw
  end.

(** [const { page = 1, limit = 10 } = req.query]: the default applies to
    a missing parameter only. *)
Definition query_int (default : Z) (q : option string) : option Z :=
  match q with
  | None => Some default
  | Some raw => read_int raw
  end.

(** [.sort({ createdAt: -1 })]; documents with equal timestamps keep
    their order of insertion. *)
Fixpoint insert_newest (d : supportRequest) (l : list supportRequest)
  : list supportRequest :=
  match l with
  | [] => [d]
  | x :: rest =>
      if sr_createdAt x <=? sr_createdAt d then d :: l
      else x :: insert_newest d rest
  end.

Definition sort_newest (l : list supportRequest) : list supportRequest :=
  fold_right insert_newest [] l.

(** [status ? { status } : {}] as a predicate on documents. *)
Definition matches (status : option string) (d : supportRequest) : bool :=
  match present status with
  | Some s => String.eqb (sr_status d) s
  | None => true
  end.

(** [Math.ceil(count / limit)] for a limit that is not zero (the
    floating-point quotient rounds to the same ceiling for every count
    below 2^53). *)
Definition ceil_div (count limit : Z) : Z := - ((- count) / limit).

(** The documents of one page, for a skip that is not negative and a
    limit that is not negative: filter, newest first, skip, limit, where
    a limit of zero is no limit. *)
Definition page_docs (status : option string) (page limit : Z) (w : world)
  : list supportRequest :=
  let rest := skipn (Z.to_nat ((page - 1) * limit))
                (sort_newest (filter (matches status) (requests w))) in
  if limit =? 0 then rest else firstn (Z.to_nat limit) rest.

Section Listing.

(** The query parameters are taken as plain strings (no repeated or
    bracketed parameter).  What the [try] block comes to when [page] or
    [limit] does not read as an integer, when [limit] reads as a
    negative one, or when the skip [(page - 1) * limit] leaves the range
    of exact integers (2^53): left open. *)
Variable unread_query :
  option string -> option string -> option string -> world -> outcome response.

(** The error of the driver for a negative skip. *)
Variable skip_error : Z -> exn.

Definition getAllSupportRequests (E : env) (status page limit : option string)
  : world -> response * world :=
  try_catch
    (match query_int 1 page, query_int 10 limit with
     | Some p, Some l =>
         let skip := (p - 1) * l in
         if (l <? 0) || (2 ^ 53 <? Z.abs skip)
         then fun w => (unread_query status page limit w, w) else
         supportRequests <-
           db_call E 0 (fun w =>
             if skip <? 0 then (Throw (skip_error skip), w)
             else (Ok (page_docs status p l w), w)) ;;
         populated <- populate E 1 supportRequests ;;
         count <-
           db_call E 2 (fun w =>
             (Ok (Z.of_nat (length (filter (matches status) (requests w)))), w)) ;;
         ret (status_json 200
                (JObj [("success", JBool true);
                       ("data", JArr populated);
                       ("totalPages",
                        if l =? 0 then JNull else JNum (ceil_div count l));
                       ("currentPage",
                        match page with
                        | Some raw => JStr raw
                        | None => JNum 1
                        end);
                       ("total", JNum count)]))
     | _, _ => fun w => (unread_query status page limit w, w)
     end)
    (support_caught "Error fetching support requests:"
                    "Failed to fetch support requests").

End Listing.


(** ** Invariants of the two collections *)

(** A local identity has a password hash, a Google identity a subject
    id. *)
Definition credentials_ok (u : user) : Prop :=
  match u_authProvider u with
  | local => u_password u <> None
  | google => u_googleId u <> None
  end.

(** What the schema of [SupportRequest] guarantees of a stored
    document. *)
Record valid_doc (JS : strings_js) (d : supportRequest) : Prop := mkValidDoc {
  vd_subject : sr_subject d <> "";
  vd_subject_len : (js_length JS (sr_subject d) <= 200)%nat;
  vd_description : sr_description d <> "";
  vd_email : sr_email d <> "";
  vd_email_lower : exists raw, sr_email d = toLowerCase JS raw;
  vd_status : In (sr_status d) status_enum;
  vd_priority : In (sr_priority d) priority_enum
}.

(** Every stored ticket has an id below the next one to be assigned. *)
Definition requests_fresh (w : world) : Prop :=
  Forall (fun d => (sr_id d < next_id w)%nat) (requests w).

(** Newest first. *)
Fixpoint newest_first (l : list supportRequest) : Prop :=
  match l with
  | [] => True
  | x :: rest =>
      Forall (fun y => sr_createdAt y <= sr_createdAt x) rest /\ newest_first rest
  end.

(** The projection of a ticket that an update must not change. *)
Definition ticket_core (d : supportRequest) :=
  (sr_id d, sr_subject d, sr_description d, sr_phoneNumber d, sr_email d,
   sr_attachments d, sr_userId d, sr_createdAt d).

Definition ticket : supportRequest :=
  mkSupportRequest 2 "Help" "It broke" "" "ann@x.com"
    [mkAttachment "screen.PNG" "uploads/support/support-1.PNG" "image/png" 120000]
    "pending" "medium" None 1700000000000 1700000000000.

Definition ticket_world : world := mkWorld [ann; bob] [ticket] 3 [].

(** Two later tickets, and a store that holds all three. *)
Definition ticket_later : supportRequest :=
  mkSupportRequest 3 "Login" "Cannot log in" "" "bob@x.com" []
    "resolved" "high" None 1700000100000 1700000100000.

Definition ticket_latest : supportRequest :=
  mkSupportRequest 4 "Print" "Cannot print" "" "bob@x.com" []
    "pending" "low" None 1700000200000 1700000200000.

Definition busy_world : world :=
  mkWorld [ann; bob] [ticket; ticket_later; ticket_latest] 5 [].

(** Stand-ins for what is left open in [getAllSupportRequests]. *)
Definition demo_unread (status page limit : option string) (w : world)
  : outcome response :=
  Throw (mkExn "Error" "unread query").

Definition demo_skip_error (skip : Z) : exn :=
  mkExn "MongoServerError" "skip value must be non-negative".

(** ** Concrete runs *)

(** Signing up as Ann on an empty store, then verifying the token that
    came back and logging in with the email in another letter case. *)
Example signup_then_verify :
  let (r, w) := signup "k" demo_hash demo_env (Some "Ann") (Some "ann@x.com")
                       (Some "secret123") empty_world in
  status r = 201
  /\ status (fst (verifyToken "k" demo_env
                    (Some (jwt_signed (mkClaims 0 1700000000 1702592000) "k")) w))
     = 200
  /\ status (fst (login "k" demo_compare demo_env (Some "Ann@X.com")
                        (Some "secret123") w)) = 200.
Proof. vm_compute. repeat split. Qed.

(** The pattern is searched for anywhere in the mimetype. *)
Example allowedTypes_on_mimetypes :
  map allowedTypes_test ["image/png"; "application/pdf"; "text/plain"; "video/mp4"]
  = [true; true; false; false].
Proof. reflexivity. Qed.

Example too_many_files :
  fst (createSupportRequest latin1_strings demo_extname true demo_env
         [photo; photo; photo; photo; photo; photo]
         (Some "Help") (Some "It broke") None (Some "ann@x.com") None demo_world)
  = mkResponse 400
       (JObj [("success", JBool false);
              ("message", JStr "File upload error: Unexpected field")]).
Proof. reflexivity. Qed.

(** The time spans that [ms] reads. *)
Example ms_examples :
  map ms ["30d"; "1.5h"; "10"; "2 Weeks"; "5."; "soon"]
  = [Some (2592000000, 1); Some (54000000, 10); Some (10, 1);
     Some (1209600000, 1); None; None].
Proof. reflexivity. Qed.

(** ** Stepping lemmas *)

Lemma findByEmail_up E n e w :
  db_fault E n = None ->
  findByEmail E n e w = (Ok (find (same_email e) (users w)), w).
Proof. intros H. unfold findByEmail, db_call. now rewrite H. Qed.

Lemma findById_up E n id w :
  db_fault E n = None ->
  findById E n id w = (Ok (find (fun u => Nat.eqb (u_id u) id) (users w)), w).
Proof. intros H. unfold findById, db_call. now rewrite H. Qed.

Lemma db_call_down {A} E n (op : M A) e w :
  db_fault E n = Some e -> db_call E n op w = (Throw e, w).
Proof. intros H. unfold db_call. now rewrite H. Qed.

Lemma present_Some f s : present f = Some s -> f = Some s /\ s <> "".
Proof.
  destruct f as [[|c t]|]; simpl; intros H; inversion H; subst.
  split; [reflexivity | discriminate].
Qed.

Lemma present_nonempty s : s <> "" -> present (Some s) = Some s.
Proof. destruct s; [congruence | reflexivity]. Qed.

(** With a signing key configured, [generateToken] returns the token
    for the id, issued now and expiring 2 592 000 s later. *)
Lemma generateToken_configured JWT_SECRET E id :
  JWT_SECRET <> "" ->
  generateToken JWT_SECRET E id
  = Ok (jwt_signed (mkClaims id (now_ms E / 1000) (now_ms E / 1000 + 2592000))
                   JWT_SECRET).
Proof.
  intros Hk. unfold generateToken, jwt_sign.
  apply String.eqb_neq in Hk. rewrite Hk.
  change (timespan "30d" (now_ms E / 1000))
    with (Some (now_ms E / 1000 + 2592000000 / (1 * 1000))).
  reflexivity.
Qed.

(** Without one it throws. *)
Lemma generateToken_unconfigured E id :
  generateToken "" E id
  = Throw (mkExn "Error" "secretOrPrivateKey must have a value").
Proof. reflexivity. Qed.

(** C1 (as written, refuted): on the same store a login for an unknown
    email and a login against a federated-only identity are answered with
    different bodies, so the caller can tell the two cases apart. *)
Lemma login_failures_distinguishable :
  fst (login "k" demo_compare demo_env (Some "ghost@x.com") (Some "pw") demo_world)
  <> fst (login "k" demo_compare demo_env (Some "bob@x.com") (Some "pw") demo_world).
Proof. vm_compute. discriminate. Qed.

(** C1 (amended): every refused login is answered with status 401 and
    [success: false], the store untouched; the unknown-email and the
    wrong-password cases carry the same message "Invalid credentials",
    the federated-only case the message "Please sign in with Google". *)
Theorem login_failure_response
    (JWT_SECRET : string) (bcrypt_compare : string -> string -> bool)
    (E : env) (w : world) (email password : string) (c : login_failure) :
  email <> "" -> password <> "" ->
  db_fault E 0 = None ->
  login_failure_of bcrypt_compare w email password = Some c ->
  login JWT_SECRET bcrypt_compare E (Some email) (Some password) w
  = (mkResponse 401
       (JObj [("success", JBool false);
              ("message", JStr (login_failure_message c))]), w).
Proof.
  intros He Hp Hdb Hc.
  unfold login, try_catch, bind.
  rewrite (present_nonempty _ He), (present_nonempty _ Hp).
  rewrite (findByEmail_up _ _ _ _ Hdb).
  unfold login_failure_of in Hc.
  destruct (find (same_email email) (users w)) as [u|].
  - unfold falsy.
    destruct (u_authProvider u), (u_password u) as [h|] eqn:Hpw; simpl in *.
    + destruct (bcrypt_compare password h); [discriminate|].
      now inversion Hc.
    + discriminate.
    + destruct h as [|a h']; simpl in *.
      * now inversion Hc.
      * destruct (bcrypt_compare password (String a h')); [discriminate|].
        now inversion Hc.
    + now inversion Hc.
  - now inversion Hc.
Qed.

Lemma login_failure_response_witness :
  login "k" demo_compare demo_env (Some "bob@x.com") (Some "pw") demo_world
  = (mkResponse 401
       (JObj [("success", JBool false);
              ("message", JStr "Please sign in with Google")]), demo_world).
Proof.
  apply (login_failure_response "k" demo_compare demo_env demo_world
           "bob@x.com" "pw" FederatedOnly);
    [discriminate | discriminate | reflexivity | reflexivity].
Defined.

Lemma find_same_email_In e l u :
  find (same_email e) l = Some u -> In u l /\ key_of u = email_key e.
Proof.
  intros H. apply find_some in H. destruct H as [Hin Heq].
  split; [assumption|]. now apply String.eqb_eq in Heq.
Qed.

Lemma find_same_email_None e l :
  find (same_email e) l = None -> existsb (same_email e) l = false.
Proof.
  induction l as [|d l IH]; simpl; [reflexivity|].
  destruct (same_email e d); [discriminate | exact IH].
Qed.

(** Saving a linked copy of the document found by email leaves a later
    lookup by the same email on the linked copy. *)
Lemma find_after_save e sub l u :
  find (same_email e) l = Some u ->
  find (same_email e) (save_doc (link_google u sub) l)
  = Some (link_google u sub).
Proof.
  unfold save_doc. induction l as [|d l IH]; simpl; [discriminate|].
  destruct (same_email e d) eqn:Hd; intros H.
  - inversion H; subst d. rewrite Nat.eqb_refl. simpl.
    unfold same_email in *. simpl. now rewrite Hd.
  - destruct (Nat.eqb (u_id d) (u_id u)) eqn:Hid.
    + simpl. destruct (find_same_email_In _ _ _ H) as [_ Hk].
      unfold same_email, key_of in *. simpl. rewrite Hk, String.eqb_refl.
      reflexivity.
    + simpl. rewrite Hd. now apply IH.
Qed.

(** C2: federatedLogin on an email held by a [local] identity stores the
    same identity with provider [google], the asserted subject id and the
    old password hash, whatever else happens; with a signing key
    configured it answers 200, and afterwards a login with a password
    that the stored hash verifies still succeeds, with a token for that
    identity. *)
Theorem googleAuth_links_local_account
    (JWT_SECRET : string) (bcrypt_compare : string -> string -> bool)
    (E : env) (w : world) (credential email name sub : string) (u : user) :
  credential <> "" -> email <> "" ->
  verifyIdToken E credential = Ok (email, name, sub) ->
  db_fault E 0 = None -> db_fault E 1 = None ->
  find (same_email email) (users w) = Some u ->
  u_authProvider u = local ->
  let w' := snd (googleAuth JWT_SECRET E (Some credential) w) in
  (JWT_SECRET <> "" ->
   status (fst (googleAuth JWT_SECRET E (Some credential) w)) = 200) /\
  (exists u',
      find (same_email email) (users w') = Some u' /\
      u_id u' = u_id u /\
      u_authProvider u' = google /\
      u_googleId u' = Some sub /\
      u_password u' = u_password u /\
      forall (E' : env) (password hash : string),
        JWT_SECRET <> "" ->
        password <> "" -> db_fault E' 0 = None ->
        u_password u = Some hash -> hash <> "" ->
        bcrypt_compare password hash = true ->
        fst (login JWT_SECRET bcrypt_compare E' (Some email) (Some password) w')
        = mkResponse 200
            (JObj [("success", JBool true);
                   ("message", JStr "Login successful");
                   ("data",
                    JObj [("user",
                           JObj [("id", JNum (Z.of_nat (u_id u)));
                                 ("name", JStr (u_name u));
                                 ("email", JStr (u_email u))]);
                          ("token",
                           JTok (jwt_signed
                                   (mkClaims (u_id u) (now_ms E' / 1000)
                                             (now_ms E' / 1000 + 2592000))
                                   JWT_SECRET))])])).
Proof.
  intros Hc He Hv H0 H1 Hf Hl.
  assert (Hw' : users (snd (googleAuth JWT_SECRET E (Some credential) w))
                = save_doc (link_google u sub) (users w)).
  { unfold googleAuth, try_catch, bind, lift, ret.
    rewrite (present_nonempty _ Hc), Hv, (findByEmail_up _ _ _ _ H0), Hf, Hl.
    cbn [provider_eqb]. unfold User_save, db_call. rewrite H1.
    destruct (generateToken JWT_SECRET E (u_id (link_google u sub))); reflexivity. }
  cbv zeta. split.
  - intros Hk. unfold googleAuth, try_catch, bind, lift, ret.
    rewrite (present_nonempty _ Hc), Hv, (findByEmail_up _ _ _ _ H0), Hf, Hl.
    cbn [provider_eqb]. unfold User_save, db_call. rewrite H1.
    now rewrite (generateToken_configured _ _ _ Hk).
  - exists (link_google u sub).
    split; [rewrite Hw'; now apply find_after_save|].
    repeat (split; [reflexivity|]).
    intros E' password hash Hk Hp H0' Hh Hne Hcmp.
    unfold login, try_catch, bind, lift, ret.
    rewrite (present_nonempty _ He), (present_nonempty _ Hp).
    rewrite (findByEmail_up _ _ _ _ H0'), Hw'.
    rewrite (find_after_save _ sub _ _ Hf).
    cbn [link_google u_authProvider u_password provider_eqb andb].
    unfold falsy. rewrite Hh.
    destruct hash as [|a h]; [congruence|].
    cbn [present bcrypt_compare_js]. rewrite Hcmp.
    cbn [negb]. rewrite (generateToken_configured _ _ _ Hk). reflexivity.
Qed.

Lemma googleAuth_links_local_account_witness :
  let w' := snd (googleAuth "k" demo_env (Some "good-assertion") demo_world) in
  status (fst (googleAuth "k" demo_env (Some "good-assertion") demo_world)) = 200
  /\ find (same_email "ann@x.com") (users w')
     = Some (mkUser 0 "Ann" "ann@x.com" (Some "s1$secret123") (Some "sub-42")
                    google 1690000000000)
  /\ status (fst (login "k" demo_compare demo_env (Some "ann@x.com")
                        (Some "secret123") w')) = 200.
Proof.
  destruct (googleAuth_links_local_account "k" demo_compare demo_env demo_world
              "good-assertion" "ann@x.com" "Ann" "sub-42" ann)
    as [H200 [u' [Hfind [_ [_ [_ [_ Hlogin]]]]]]];
    try discriminate; try reflexivity.
  split; [apply H200; discriminate|].
  split; [reflexivity|].
  rewrite (Hlogin demo_env "secret123" "s1$secret123");
    try discriminate; reflexivity.
Defined.

(** C10: federatedLogin on an email held by an identity whose provider is
    not [local] never changes the [User] collection, whatever subject id
    is asserted; with a signing key configured it leaves the whole store
    as it was and answers 200 with that identity's summary and a token
    for its id. *)
Theorem googleAuth_known_federated_unchanged
    (JWT_SECRET : string)
    (E : env) (w : world) (credential email name sub : string) (u : user) :
  credential <> "" ->
  verifyIdToken E credential = Ok (email, name, sub) ->
  db_fault E 0 = None ->
  find (same_email email) (users w) = Some u ->
  u_authProvider u <> local ->
  users (snd (googleAuth JWT_SECRET E (Some credential) w)) = users w
  /\ (JWT_SECRET <> "" ->
      googleAuth JWT_SECRET E (Some credential) w
      = (mkResponse 200
           (JObj [("success", JBool true);
                  ("message", JStr "Google authentication successful");
                  ("data",
                   JObj [("user",
                          JObj [("id", JNum (Z.of_nat (u_id u)));
                                ("name", JStr (u_name u));
                                ("email", JStr (u_email u))]);
                         ("token",
                          JTok (jwt_signed
                                  (mkClaims (u_id u) (now_ms E / 1000)
                                            (now_ms E / 1000 + 2592000))
                                  JWT_SECRET))])]),
         w)).
Proof.
  intros Hc Hv H0 Hf Hl.
  unfold googleAuth, try_catch, bind, lift, ret.
  rewrite (present_nonempty _ Hc), Hv, (findByEmail_up _ _ _ _ H0), Hf.
  destruct (u_authProvider u); [congruence|]. cbn [provider_eqb].
  split.
  - destruct (generateToken JWT_SECRET E (u_id u)); reflexivity.
  - intros Hk. now rewrite (generateToken_configured _ _ _ Hk).
Qed.

Lemma googleAuth_known_federated_unchanged_witness :
  googleAuth "k" relogin_env (Some "assertion") demo_world
  = (mkResponse 200
       (JObj [("success", JBool true);
              ("message", JStr "Google authentication successful");
              ("data",
               JObj [("user",
                      JObj [("id", JNum 1); ("name", JStr "Bob");
                            ("email", JStr "bob@x.com")]);
                     ("token",
                      JTok (jwt_signed (mkClaims 1 1700000000 1702592000) "k"))])]),
     demo_world).
Proof.
  refine (proj2 (googleAuth_known_federated_unchanged "k" relogin_env demo_world
                   "assertion" "bob@x.com" "Bob" "another-subject" bob
                   _ _ _ _ _) _);
    try discriminate; reflexivity.
Defined.

(** C3 (as written, refuted): for a token that verifies but whose id no
    stored identity has, [verifyToken] does not fail with a not-found
    error: it answers 401 "Invalid token", an authentication failure of
    the same status as the one for a token that does not verify. *)
Lemma verifyToken_unknown_user_is_401 :
  let r := fst (verifyToken "k" demo_env
                  (Some (jwt_signed (mkClaims 7 1699999000 1702591000) "k"))
                  demo_world) in
  jwt_verify (jwt_signed (mkClaims 7 1699999000 1702591000) "k") "k"
             (now_ms demo_env)
  = Ok (mkClaims 7 1699999000 1702591000)
  /\ find (fun u => Nat.eqb (u_id u) 7) (users demo_world) = None
  /\ r = mkResponse 401 (JObj [("success", JBool false);
                               ("message", JStr "Invalid token")])
  /\ error_kind_of r <> Some NotFoundError
  /\ error_kind_of r
     = error_kind_of (fst (verifyToken "k" demo_env (Some (jwt_garbage "abc"))
                             demo_world)).
Proof. vm_compute. repeat split. discriminate. Qed.

(** C3 (amended): with the store answering, [verifyToken] answers 400
    "Token is required" when the token is absent; the single 401
    "Invalid or expired token" whatever made the token verifier fail
    (malformed, wrong signature or expired); 401 "Invalid token" when
    the token verifies but its id is not in the store; and otherwise 200
    with the identity's id, name and email and no secret field.  The
    store is not touched. *)
Theorem verifyToken_cases
    (JWT_SECRET : string) (E : env) (w : world) (token : option jwt) :
  db_fault E 0 = None ->
  (present_token token = None ->
   verifyToken JWT_SECRET E token w
   = (mkResponse 400 (JObj [("success", JBool false);
                            ("message", JStr "Token is required")]), w))
  /\ (forall t,
         present_token token = Some t ->
         (exists raw, t = jwt_garbage raw)
         \/ (exists payload key, t = jwt_signed payload key /\ key <> JWT_SECRET)
         \/ (exists payload, t = jwt_signed payload JWT_SECRET
                             /\ c_exp payload <= now_ms E / 1000) ->
         verifyToken JWT_SECRET E token w
         = (mkResponse 401 (JObj [("success", JBool false);
                                  ("message", JStr "Invalid or expired token")]),
            w))
  /\ (forall t payload,
         present_token token = Some t ->
         jwt_verify t JWT_SECRET (now_ms E) = Ok payload ->
         match find (fun u => Nat.eqb (u_id u) (c_id payload)) (users w) with
         | None =>
             verifyToken JWT_SECRET E token w
             = (mkResponse 401 (JObj [("success", JBool false);
                                      ("message", JStr "Invalid token")]), w)
         | Some u =>
             verifyToken JWT_SECRET E token w
             = (mkResponse 200
                  (JObj [("success", JBool true);
                         ("data",
                          JObj [("user",
                                 JObj [("id", JNum (Z.of_nat (u_id u)));
                                       ("name", JStr (u_name u));
                                       ("email", JStr (u_email u))])])]),
                w)
             /\ leaks (body (fst (verifyToken JWT_SECRET E token w))) = false
         end).
Proof.
  intros H0. split; [|split].
  - intros Hnone. unfold verifyToken, try_catch. now rewrite Hnone.
  - intros t Ht Hbad.
    assert (Hthrow : exists e, jwt_verify t JWT_SECRET (now_ms E) = Throw e).
    { destruct Hbad as [[raw Hraw] | [[payload [key [Hsig Hkey]]] | [payload [Hsig Hexp]]]];
        subst t; unfold jwt_verify.
      - destruct (String.eqb raw ""); [eexists; reflexivity|].
        destruct (Nat.eqb (segments raw) 3); eexists; reflexivity.
      - destruct (String.eqb JWT_SECRET ""); [eexists; reflexivity|].
        apply String.eqb_neq in Hkey. rewrite Hkey. eexists; reflexivity.
      - destruct (String.eqb JWT_SECRET ""); [eexists; reflexivity|].
        rewrite String.eqb_refl. cbn [negb].
        apply Z.leb_le in Hexp. rewrite Hexp. eexists; reflexivity. }
    destruct Hthrow as [e He].
    unfold verifyToken, try_catch, bind, lift. now rewrite Ht, He.
  - intros t payload Ht Hv.
    unfold verifyToken, try_catch, bind, lift, ret.
    rewrite Ht, Hv, (findById_up _ _ _ _ H0).
    destruct (find _ (users w)) as [u|]; [split|]; reflexivity.
Qed.

Lemma verifyToken_cases_witness :
  verifyToken "k" demo_env
    (Some (jwt_signed (mkClaims 0 1699999000 1702591000) "k")) demo_world
  = (mkResponse 200
       (JObj [("success", JBool true);
              ("data",
               JObj [("user",
                      JObj [("id", JNum 0); ("name", JStr "Ann");
                            ("email", JStr "ann@x.com")])])]),
     demo_world)
  /\ verifyToken "k" demo_env
       (Some (jwt_signed (mkClaims 0 1600000000 1602592000) "k")) demo_world
     = (mkResponse 401 (JObj [("success", JBool false);
                              ("message", JStr "Invalid or expired token")]),
        demo_world).
Proof.
  split.
  - destruct (verifyToken_cases "k" demo_env demo_world
                (Some (jwt_signed (mkClaims 0 1699999000 1702591000) "k"))
                eq_refl) as [_ [_ H]].
    exact (proj1 (H (jwt_signed (mkClaims 0 1699999000 1702591000) "k")
                     (mkClaims 0 1699999000 1702591000) eq_refl eq_refl)).
  - destruct (verifyToken_cases "k" demo_env demo_world
                (Some (jwt_signed (mkClaims 0 1600000000 1602592000) "k"))
                eq_refl) as [_ [H _]].
    apply (H (jwt_signed (mkClaims 0 1600000000 1602592000) "k") eq_refl).
    right. right. exists (mkClaims 0 1600000000 1602592000).
    split; [reflexivity|]. cbn. discriminate.
Defined.

(** C4: with a signing key configured and the store answering, [signup]
    answers 400 "Please provide all required fields" when a field is
    absent (or empty), 400 "User already exists with this email" when
    the email is already held, and otherwise hashes the password with
    the fresh salt, stores a new [local] identity under the next id and
    answers 201 with the identity's id, name and email and a token for
    its id. *)
Theorem signup_cases
    (JWT_SECRET : string) (bcrypt_hash : string -> string -> string)
    (E : env) (w : world) (name email password : option string) :
  JWT_SECRET <> "" ->
  db_fault E 0 = None -> db_fault E 1 = None ->
  (falsy name = true \/ falsy email = true \/ falsy password = true ->
   signup JWT_SECRET bcrypt_hash E name email password w
   = (mkResponse 400 (JObj [("success", JBool false);
                            ("message", JStr "Please provide all required fields")]),
      w))
  /\
  (forall n e p,
      present name = Some n -> present email = Some e ->
      present password = Some p ->
      (forall existing,
          find (same_email e) (users w) = Some existing ->
          signup JWT_SECRET bcrypt_hash E name email password w
          = (mkResponse 400
               (JObj [("success", JBool false);
                      ("message", JStr "User already exists with this email")]),
             w))
      /\
      (find (same_email e) (users w) = None ->
       signup JWT_SECRET bcrypt_hash E name email password w
       = (mkResponse 201
            (JObj [("success", JBool true);
                   ("message", JStr "User created successfully");
                   ("data",
                    JObj [("user",
                           JObj [("id", JNum (Z.of_nat (next_id w)));
                                 ("name", JStr n); ("email", JStr e)]);
                          ("token",
                           JTok (jwt_signed
                                   (mkClaims (next_id w) (now_ms E / 1000)
                                             (now_ms E / 1000 + 2592000))
                                   JWT_SECRET))])]),
          mkWorld (users w ++ [mkUser (next_id w) n e
                                 (Some (bcrypt_hash p (salt E))) None local
                                 (now_ms E)])
                  (requests w) (S (next_id w)) (console w)))).
Proof.
  intros Hk H0 H1. split.
  - intros Hmiss. unfold signup, try_catch, falsy in *.
    destruct (present name); [|reflexivity].
    destruct (present email); [|reflexivity].
    destruct (present password); [|reflexivity].
    destruct Hmiss as [H|[H|H]]; discriminate.
  - intros n e p Hn He Hp. unfold signup, try_catch, bind, lift, ret.
    rewrite Hn, He, Hp, (findByEmail_up _ _ _ _ H0).
    split.
    + intros existing Hf. now rewrite Hf.
    + intros Hf. rewrite Hf.
      apply present_Some in Hn, He. destruct Hn as [_ Hn], He as [_ He].
      unfold User_create, db_call. cbn [nu_name nu_email].
      apply String.eqb_neq in Hn, He. rewrite Hn, He, H1.
      rewrite (find_same_email_None _ _ Hf).
      now rewrite (generateToken_configured _ _ _ Hk).
Qed.

Lemma signup_cases_witness :
  signup "k" demo_hash demo_env (Some "Cy") (Some "cy@x.com") (Some "hunter2")
         demo_world
  = (mkResponse 201
       (JObj [("success", JBool true);
              ("message", JStr "User created successfully");
              ("data",
               JObj [("user",
                      JObj [("id", JNum 2); ("name", JStr "Cy");
                            ("email", JStr "cy@x.com")]);
                     ("token",
                      JTok (jwt_signed (mkClaims 2 1700000000 1702592000) "k"))])]),
     mkWorld [ann; bob;
              mkUser 2 "Cy" "cy@x.com" (Some "s1$hunter2") None local 1700000000000]
             [] 3 [])
  /\ fst (signup "k" demo_hash demo_env (Some "Cy") (Some "ANN@x.com")
                 (Some "hunter2") demo_world)
     = mkResponse 400
         (JObj [("success", JBool false);
                ("message", JStr "User already exists with this email")])
  /\ fst (signup "k" demo_hash demo_env (Some "Cy") None (Some "hunter2")
                 demo_world)
     = mkResponse 400
         (JObj [("success", JBool false);
                ("message", JStr "Please provide all required fields")]).
Proof.
  assert (Hk : "k" <> "") by discriminate.
  split; [|split].
  - destruct (signup_cases "k" demo_hash demo_env demo_world
                (Some "Cy") (Some "cy@x.com") (Some "hunter2") Hk eq_refl eq_refl)
      as [_ H].
    destruct (H "Cy" "cy@x.com" "hunter2" eq_refl eq_refl eq_refl) as [_ Hnew].
    exact (Hnew eq_refl).
  - destruct (signup_cases "k" demo_hash demo_env demo_world
                (Some "Cy") (Some "ANN@x.com") (Some "hunter2") Hk eq_refl eq_refl)
      as [_ H].
    destruct (H "Cy" "ANN@x.com" "hunter2" eq_refl eq_refl eq_refl) as [Htaken _].
    now rewrite (Htaken ann eq_refl).
  - destruct (signup_cases "k" demo_hash demo_env demo_world
                (Some "Cy") None (Some "hunter2") Hk eq_refl eq_refl)
      as [Hmiss _].
    rewrite Hmiss; [reflexivity|]. right. left. reflexivity.
Defined.

(** C6: with a signing key configured, the token issued for a user id
    carries that id and expires thirty days (2 592 000 s) after its
    issue time: the token verifier accepts it at every instant before
    that and fails with TokenExpiredError from then on.  Any token
    signed with the key whose expiry lies in the past makes the verifier
    fail with TokenExpiredError, and [verifyToken] refuses it with 401
    "Invalid or expired token". *)
Theorem token_expiry
    (JWT_SECRET : string) (E : env) (userId : nat) :
  JWT_SECRET <> "" ->
  (exists token payload,
      generateToken JWT_SECRET E userId = Ok token
      /\ token = jwt_signed payload JWT_SECRET
      /\ c_id payload = userId
      /\ c_iat payload = now_ms E / 1000
      /\ c_exp payload - c_iat payload = 30 * 24 * 60 * 60
      /\ forall later,
          (later / 1000 < c_iat payload + 30 * 24 * 60 * 60 ->
           jwt_verify token JWT_SECRET later = Ok payload)
          /\ (c_iat payload + 30 * 24 * 60 * 60 <= later / 1000 ->
              jwt_verify token JWT_SECRET later
              = Throw (mkExn "TokenExpiredError" "jwt expired")))
  /\
  (forall (E' : env) (w : world) (payload : claims),
      c_exp payload * 1000 < now_ms E' ->
      jwt_verify (jwt_signed payload JWT_SECRET) JWT_SECRET (now_ms E')
      = Throw (mkExn "TokenExpiredError" "jwt expired")
      /\ verifyToken JWT_SECRET E' (Some (jwt_signed payload JWT_SECRET)) w
         = (mkResponse 401 (JObj [("success", JBool false);
                                  ("message", JStr "Invalid or expired token")]),
            w)).
Proof.
  intros Hk. pose proof Hk as Hkb. apply String.eqb_neq in Hkb. split.
  - eexists. eexists. split; [now apply generateToken_configured|].
    split; [reflexivity|]. cbn [c_id c_iat c_exp].
    repeat split; try lia.
    + intros Hlt. unfold jwt_verify. rewrite Hkb, String.eqb_refl. cbn [negb c_exp].
      assert (Hle : (now_ms E / 1000 + 2592000 <=? later / 1000) = false)
        by (apply Z.leb_gt; lia).
      now rewrite Hle.
    + intros Hge. unfold jwt_verify. rewrite Hkb, String.eqb_refl. cbn [negb c_exp].
      assert (Hle : (now_ms E / 1000 + 2592000 <=? later / 1000) = true)
        by (apply Z.leb_le; lia).
      now rewrite Hle.
  - intros E' w payload Hpast.
    assert (Hle : (c_exp payload <=? now_ms E' / 1000) = true).
    { apply Z.leb_le. apply Z.div_le_lower_bound; lia. }
    assert (Hv : jwt_verify (jwt_signed payload JWT_SECRET) JWT_SECRET (now_ms E')
                 = Throw (mkExn "TokenExpiredError" "jwt expired")).
    { unfold jwt_verify. now rewrite Hkb, String.eqb_refl, Hle. }
    split; [exact Hv|].
    unfold verifyToken, try_catch, bind, lift.
    cbn [present_token]. now rewrite Hv.
Qed.

Lemma token_expiry_witness :
  generateToken "k" demo_env 0
  = Ok (jwt_signed (mkClaims 0 1700000000 1702592000) "k")
  /\ jwt_verify (jwt_signed (mkClaims 0 1700000000 1702592000) "k") "k"
                1702591999999
     = Ok (mkClaims 0 1700000000 1702592000)
  /\ jwt_verify (jwt_signed (mkClaims 0 1700000000 1702592000) "k") "k"
                1702592000000
     = Throw (mkExn "TokenExpiredError" "jwt expired")
  /\ verifyToken "k" demo_env
       (Some (jwt_signed (mkClaims 0 1690000000 1692592000) "k")) demo_world
     = (mkResponse 401 (JObj [("success", JBool false);
                              ("message", JStr "Invalid or expired token")]),
        demo_world).
Proof.
  assert (Hk : "k" <> "") by discriminate.
  destruct (token_expiry "k" demo_env 0%nat Hk)
    as [[token [payload [Hgen [Htok [_ [_ [_ Hwin]]]]]]] Hpast].
  assert (Htoken : token = jwt_signed (mkClaims 0 1700000000 1702592000) "k").
  { vm_compute in Hgen. now injection Hgen as <-. }
  assert (Hpayload : payload = mkClaims 0 1700000000 1702592000).
  { rewrite Htoken in Htok. now injection Htok as <-. }
  subst token payload.
  split; [exact Hgen|].
  split; [apply (proj1 (Hwin 1702591999999)); reflexivity|].
  split; [apply (proj2 (Hwin 1702592000000)); cbn; discriminate|].
  apply (Hpast demo_env demo_world (mkClaims 0 1690000000 1692592000)).
  reflexivity.
Defined.

(** Case analysis on whatever a handler branches on next. *)
Ltac branch :=
  match goal with
  | |- context [match ?x with _ => _ end] =>
      lazymatch x with
      | context [match _ with _ => _ end] => fail
      | _ => destruct x eqn:?
      end
  end.

Ltac run_handler :=
  unfold signup, login, googleAuth, verifyToken, getUserProfile,
    User_create, User_save, findByEmail, findById, db_call,
    try_catch, caught, bind, ret, lift, throw;
  repeat (branch; cbn beta iota).

(** C7: whatever the request and the stored state, the body answered by
    signup, login, federatedLogin, verify and getProfile has no
    [password] / [googleId] field (nor one named [passwordHash] or
    [federatedSubjectId]) at any depth. *)
Theorem responses_hide_secret_fields
    (JWT_SECRET : string) (bcrypt_hash : string -> string -> string)
    (bcrypt_compare : string -> string -> bool)
    (E : env) (r : request) (w : world) :
  leaks (body (fst (handle JWT_SECRET bcrypt_hash bcrypt_compare E r w))) = false.
Proof.
  destruct r; cbn [handle]; run_handler; reflexivity.
Qed.

(** ** One identity per email *)

Lemma handle_users_step JWT_SECRET bcrypt_hash bcrypt_compare E r w :
  users_step w (snd (handle JWT_SECRET bcrypt_hash bcrypt_compare E r w)).
Proof.
  destruct r; cbn [handle]; run_handler; cbn [snd];
    try (apply step_same; reflexivity).
  all: cbn [nu_name nu_email] in *.
  all: first
    [ eapply step_created; try reflexivity; cbn [u_email];
        [now apply String.eqb_neq | assumption]
    | match goal with
      | H : find (same_email _) (users ?w0) = Some ?u |- users_step ?w0 _ =>
          apply find_same_email_In in H; destruct H as [Hin _];
          eapply (step_linked _ _ u); [exact Hin | reflexivity | reflexivity]
      end ].
Qed.

Lemma existsb_same_email_key e l :
  existsb (same_email e) l = false -> ~ In (email_key e) (map key_of l).
Proof.
  induction l as [|d l IH]; simpl; [tauto|].
  intros H. apply orb_false_iff in H. destruct H as [Hd Hl].
  intros [Heq|Hin]; [|now apply IH].
  unfold same_email, key_of in *. apply String.eqb_neq in Hd. congruence.
Qed.

Lemma NoDup_snoc {A} (l : list A) (x : A) :
  NoDup l -> ~ In x l -> NoDup (l ++ [x]).
Proof.
  intros Hl Hx. apply NoDup_app; [assumption | repeat constructor; intros [] |].
  intros a Ha [Heq|[]]. subst. contradiction.
Qed.

Lemma same_id_same_doc (l : list user) (d u : user) :
  NoDup (map u_id l) -> In d l -> In u l -> u_id d = u_id u -> d = u.
Proof.
  induction l as [|x l IH]; simpl; [tauto|].
  intros Hnd Hd Hu Hid. inversion Hnd as [|? ? Hnotin Hnd']; subst.
  destruct Hd as [Hd|Hd], Hu as [Hu|Hu]; subst.
  - reflexivity.
  - exfalso. apply Hnotin. rewrite Hid. now apply in_map.
  - exfalso. apply Hnotin. rewrite <- Hid. now apply in_map.
  - now apply IH.
Qed.

(** Under unique ids, saving the linked copy of a stored document changes
    neither the ids nor the emails of the collection. *)
Lemma save_doc_frame {B} (f : user -> B) (l : list user) (u : user) (sub : string) :
  f (link_google u sub) = f u ->
  NoDup (map u_id l) -> In u l ->
  map f (save_doc (link_google u sub) l) = map f l.
Proof.
  intros Hf Hnd Hin. unfold save_doc. rewrite map_map.
  apply map_ext_in. intros d Hd. cbn [link_google u_id].
  destruct (Nat.eqb (u_id d) (u_id u)) eqn:Hid; [|reflexivity].
  apply Nat.eqb_eq in Hid.
  rewrite (same_id_same_doc l d u Hnd Hd Hin Hid). exact Hf.
Qed.

Lemma users_step_ok w w' : store_ok w -> users_step w w' -> store_ok w'.
Proof.
  intros [Hk Hi Hf He] [Hu Hn | u Hu Hid Hn Hne Hex | u sub Hin Hu Hn].
  - constructor; rewrite ?Hu, ?Hn; assumption.
  - constructor; rewrite Hu, ?Hn, ?map_app; cbn [map].
    + apply NoDup_snoc; [assumption|].
      now apply existsb_same_email_key.
    + apply NoDup_snoc; [assumption|]. rewrite Hid.
      intros Hin. apply in_map_iff in Hin. destruct Hin as [d [Hd Hin]].
      rewrite Forall_forall in Hf. specialize (Hf d Hin). lia.
    + apply Forall_app. split.
      * eapply Forall_impl; [|exact Hf]. cbn. intros; lia.
      * constructor; [lia | constructor].
    + apply Forall_app. split; [assumption|].
      constructor; [assumption | constructor].
  - assert (Hids : map u_id (users w') = map u_id (users w))
      by (rewrite Hu; now apply save_doc_frame).
    assert (Hem : map u_email (users w') = map u_email (users w))
      by (rewrite Hu; now apply save_doc_frame).
    assert (Hks : map key_of (users w') = map key_of (users w))
      by (rewrite Hu; now apply save_doc_frame).
    constructor.
    + now rewrite Hks.
    + now rewrite Hids.
    + rewrite Hn. apply Forall_forall. intros d Hd.
      apply (in_map u_id) in Hd. rewrite Hids in Hd.
      apply in_map_iff in Hd. destruct Hd as [d' [Heq Hd']].
      rewrite Forall_forall in Hf. rewrite <- Heq. now apply Hf.
    + apply Forall_forall. intros d Hd.
      apply (in_map u_email) in Hd. rewrite Hem in Hd.
      apply in_map_iff in Hd. destruct Hd as [d' [Heq Hd']].
      rewrite Forall_forall in He. rewrite <- Heq. now apply He.
Qed.

Lemma empty_world_ok : store_ok empty_world.
Proof. constructor; cbn; constructor. Qed.

Lemma serve_ok JWT_SECRET bcrypt_hash bcrypt_compare trace :
  forall w, store_ok w ->
            store_ok (serve JWT_SECRET bcrypt_hash bcrypt_compare trace w).
Proof.
  induction trace as [|[E r] rest IH]; intros w Hw; cbn [serve]; [exact Hw|].
  apply IH. eapply users_step_ok; [exact Hw | apply handle_users_step].
Qed.

Lemma store_ok_unique_emails w : store_ok w -> unique_emails w.
Proof.
  intros [Hk _ _ _]. unfold unique_emails.
  apply (NoDup_map_inv email_key).
  now rewrite map_map.
Qed.

Lemma one_holder (l : list user) (u : user) :
  NoDup (map u_email l) -> In u l ->
  length (filter (fun d => String.eqb (u_email d) (u_email u)) l) = 1%nat.
Proof.
  induction l as [|x l IH]; simpl; [tauto|].
  intros Hnd Hin. inversion Hnd as [|? ? Hnotin Hnd']; subst.
  destruct Hin as [Hx|Hin].
  - subst x. rewrite String.eqb_refl. simpl. f_equal.
    clear IH Hnd Hnd'. induction l as [|y l IHl]; [reflexivity|].
    simpl in *. destruct (String.eqb (u_email y) (u_email u)) eqn:Hy.
    + apply String.eqb_eq in Hy. exfalso. apply Hnotin. now left.
    + apply IHl. tauto.
  - destruct (String.eqb (u_email x) (u_email u)) eqn:Hx.
    + apply String.eqb_eq in Hx. exfalso. apply Hnotin.
      rewrite Hx. now apply in_map.
    + now apply IH.
Qed.

Lemma find_holder e (l : list user) (u : user) :
  In u l -> u_email u = e -> exists u', find (same_email e) l = Some u'.
Proof.
  intros Hin He.
  destruct (find (same_email e) l) as [u'|] eqn:Hf; [now exists u'|].
  exfalso. apply (find_none _ _ Hf) in Hin.
  unfold same_email in Hin. rewrite He, String.eqb_refl in Hin. discriminate.
Qed.

(** C5: after any sequence of requests served from the empty store, no
    two stored identities share an email; a signup that names an email
    some stored identity already holds is answered EmailTaken (400) and
    leaves the store as it was, with exactly one identity for that
    email. *)
Theorem one_identity_per_email
    (JWT_SECRET : string) (bcrypt_hash : string -> string -> string)
    (bcrypt_compare : string -> string -> bool)
    (trace : list (env * request)) :
  let w := serve JWT_SECRET bcrypt_hash bcrypt_compare trace empty_world in
  unique_emails w /\
  forall (E : env) (name password : string) (u : user),
    name <> "" -> password <> "" -> db_fault E 0 = None ->
    In u (users w) ->
    signup JWT_SECRET bcrypt_hash E (Some name) (Some (u_email u)) (Some password) w
    = (mkResponse 400
       (JObj [("success", JBool false);
              ("message", JStr "User already exists with this email")]), w)
    /\ length (filter (fun d => String.eqb (u_email d) (u_email u)) (users w))
       = 1%nat.
Proof.
  intros w.
  assert (Hok : store_ok w) by (apply serve_ok, empty_world_ok).
  split; [now apply store_ok_unique_emails|].
  intros E name password u Hn Hp H0 Hin. split.
  - destruct Hok as [_ _ _ He]. rewrite Forall_forall in He.
    destruct (find_holder (u_email u) _ u Hin eq_refl) as [u' Hf].
    unfold signup, try_catch, bind.
    rewrite (present_nonempty _ Hn), (present_nonempty _ (He u Hin)),
      (present_nonempty _ Hp), (findByEmail_up _ _ _ _ H0), Hf.
    reflexivity.
  - apply one_holder; [|assumption]. now apply store_ok_unique_emails.
Qed.

Lemma one_identity_per_email_witness :
  let w := serve "k" demo_hash demo_compare
             [(demo_env, Signup (Some "Ann") (Some "ann@x.com") (Some "secret123"))]
             empty_world in
  signup "k" demo_hash demo_env (Some "Ann") (Some "ann@x.com") (Some "again") w
  = (mkResponse 400
       (JObj [("success", JBool false);
              ("message", JStr "User already exists with this email")]), w)
  /\ length (filter (fun d => String.eqb (u_email d) "ann@x.com") (users w))
     = 1%nat.
Proof.
  destruct (one_identity_per_email "k" demo_hash demo_compare
              [(demo_env, Signup (Some "Ann") (Some "ann@x.com") (Some "secret123"))])
    as [_ H].
  apply (H demo_env "Ann" "again"
           (mkUser 0 "Ann" "ann@x.com" (Some "s1$secret123") None local
                   1700000000000));
    [discriminate | discriminate | reflexivity | left; reflexivity].
Defined.

(** ** Failures of the store and of the network *)

(** C8 (as written, refuted): with the store unreachable,
    [createSupportRequest] answers 500 and puts the driver's own message
    in the [error] field of the body. *)
Lemma createSupportRequest_leaks_exception_message :
  let r := fst (createSupportRequest latin1_strings demo_extname true down_env []
                  (Some "Help") (Some "It broke") None (Some "ann@x.com") None
                  demo_world) in
  status r = 500 /\
  member "error" (body r) = Some (JStr "connect ECONNREFUSED 10.0.0.5:27017").
Proof. vm_compute. split; reflexivity. Qed.

(** The two environments disagree on no call: either both let it
    through or both refuse it. *)
Ltac same_fault Hdb E E' n :=
  let H := fresh "Hsame" in
  pose proof (Hdb n) as H;
  destruct (db_fault E n) eqn:?, (db_fault E' n) eqn:?;
  [ | exfalso; destruct H as [_ H]; discriminate (H eq_refl)
    | exfalso; destruct H as [H _]; discriminate (H eq_refl) | ];
  clear H.

Lemma handle_same_failures JWT_SECRET bcrypt_hash bcrypt_compare E E' r w :
  same_failures E E' ->
  fst (handle JWT_SECRET bcrypt_hash bcrypt_compare E r w)
  = fst (handle JWT_SECRET bcrypt_hash bcrypt_compare E' r w).
Proof.
  intros [Hnow [Hsalt [Hdb Hv]]].
  destruct r; cbn [handle];
    unfold signup, login, googleAuth, verifyToken, getUserProfile,
      User_create, User_save, findByEmail, findById, db_call,
      try_catch, caught, bind, ret, lift, throw, generateToken;
    rewrite <- ?Hnow, <- ?Hsalt.
  - same_fault Hdb E E' 0%nat; same_fault Hdb E E' 1%nat;
      repeat (branch; cbn beta iota); reflexivity.
  - same_fault Hdb E E' 0%nat; repeat (branch; cbn beta iota); reflexivity.
  - destruct (present credential) as [c|]; [|reflexivity].
    specialize (Hv c).
    destruct (verifyIdToken E c) as [p|x], (verifyIdToken E' c) as [p'|x'];
      try contradiction; [subst p'|reflexivity].
    same_fault Hdb E E' 0%nat; same_fault Hdb E E' 1%nat;
      repeat (branch; cbn beta iota); reflexivity.
  - same_fault Hdb E E' 0%nat; repeat (branch; cbn beta iota); reflexivity.
  - same_fault Hdb E E' 0%nat; repeat (branch; cbn beta iota); reflexivity.
Qed.

(** C8 (amended): in signup, login, federatedLogin and getProfile a
    failing store or network call is caught, whichever call of the
    request it is: the answer is 500 with the operation's fixed body and
    the exception goes to the console; every 500 answer is that fixed
    body; and the answer is the same whatever exception the failing call
    raised, so nothing of it reaches the caller.
    [createSupportRequest] answers 500 with a fixed message too, but
    adds the exception's message as [error]. *)
Theorem upstream_errors
    (JWT_SECRET : string) (bcrypt_hash : string -> string -> string)
    (bcrypt_compare : string -> string -> bool)
    (E : env) (w : world) :
  (forall r : request,
      is_verify r = false ->
      (forall e, failure_of E r w = Some e ->
                 handle JWT_SECRET bcrypt_hash bcrypt_compare E r w
                 = (mkResponse 500
                      (JObj [("success", JBool false);
                             ("message", JStr (upstream_message r))]),
                    write_console (log_error (log_prefix r) e) w))
      /\
      (status (fst (handle JWT_SECRET bcrypt_hash bcrypt_compare E r w)) = 500 ->
       body (fst (handle JWT_SECRET bcrypt_hash bcrypt_compare E r w))
       = JObj [("success", JBool false); ("message", JStr (upstream_message r))])
      /\
      (forall E', same_failures E E' ->
                  fst (handle JWT_SECRET bcrypt_hash bcrypt_compare E r w)
                  = fst (handle JWT_SECRET bcrypt_hash bcrypt_compare E' r w)))
  /\
  (forall JS path_extname full_is_over files subject description phoneNumber email
          req_user,
      let r := createSupportRequest JS path_extname full_is_over E files subject
                 description phoneNumber email req_user w in
      status (fst r) = 500 ->
      exists error,
        body (fst r)
        = JObj [("success", JBool false);
                ("message", JStr "Failed to submit support request");
                ("error", JStr (e_message error))]
        /\ exists logged,
            console (snd r)
            = (logged ++ [log_error "Error creating support request:" error])%list).
Proof.
  split.
  - intros r Hr. split; [|split].
    + intros e.
      destruct r; try discriminate Hr;
        cbn [handle upstream_message log_prefix failure_of];
        run_handler; intros H; try discriminate H;
        try (inversion H; subst; try congruence; reflexivity).
      all: cbn [nu_name nu_email orb] in *; try congruence.
      all: exfalso;
        repeat match goal with
               | H : present _ = Some _ |- _ =>
                   apply present_Some in H; destruct H as [_ H]
               end;
        repeat match goal with
               | H : (_ || _)%bool = false |- _ =>
                   apply orb_false_iff in H; destruct H
               end;
        repeat match goal with
               | H : String.eqb _ _ = true |- _ => apply String.eqb_eq in H
               | H : String.eqb _ _ = false |- _ => apply String.eqb_neq in H
               end;
        congruence.
    + destruct r; try discriminate Hr; cbn [handle upstream_message];
        run_handler; cbn; intros H; try discriminate H; reflexivity.
    + intros E' Hsame. now apply handle_same_failures.
  - intros JS path_extname full_is_over files subject description phoneNumber
      email req_user.
    cbv zeta. unfold createSupportRequest.
    destruct (upload JS path_extname full_is_over E files) as [req_files|err].
    2: { destruct (String.eqb (e_name err) "MulterError"); cbn; discriminate. }
    unfold try_catch, bind, console_log, SupportRequest_create, db_call, throw, ret.
    cbn beta iota.
    repeat (branch; cbn beta iota); cbn [fst snd status body];
      intros H; try discriminate H.
    all: eexists; split; [reflexivity|]; cbn [write_console console];
      eexists; reflexivity.
Qed.

Lemma upstream_errors_witness :
  handle "k" demo_hash demo_compare write_refused_env
         (Signup (Some "Cy") (Some "cy@x.com") (Some "hunter2")) demo_world
  = (mkResponse 500 (JObj [("success", JBool false);
                           ("message", JStr "Error creating user")]),
     write_console (log_error "Signup error:" refused) demo_world)
  /\ handle "k" demo_hash demo_compare write_refused_env
            (GoogleAuth (Some "good-assertion")) demo_world
     = (mkResponse 500 (JObj [("success", JBool false);
                              ("message", JStr "Error with Google authentication")]),
        write_console (log_error "Google auth error:" refused) demo_world)
  /\ fst (handle "k" demo_hash demo_compare down_env
                 (Login (Some "ann@x.com") (Some "secret123")) demo_world)
     = fst (handle "k" demo_hash demo_compare timeout_env
                   (Login (Some "ann@x.com") (Some "secret123")) demo_world).
Proof.
  split; [|split].
  - destruct (upstream_errors "k" demo_hash demo_compare write_refused_env
                demo_world) as [H _].
    destruct (H (Signup (Some "Cy") (Some "cy@x.com") (Some "hunter2")) eq_refl)
      as [Hcaught _].
    apply (Hcaught refused). reflexivity.
  - destruct (upstream_errors "k" demo_hash demo_compare write_refused_env
                demo_world) as [H _].
    destruct (H (GoogleAuth (Some "good-assertion")) eq_refl) as [Hcaught _].
    apply (Hcaught refused). reflexivity.
  - destruct (upstream_errors "k" demo_hash demo_compare down_env demo_world)
      as [H _].
    destruct (H (Login (Some "ann@x.com") (Some "secret123")) eq_refl)
      as [_ [_ Hsame]].
    apply (Hsame timeout_env).
    repeat split; try reflexivity; try discriminate.
Defined.

(** ** Attachments *)

Section UploadFacts.

Variable JS : strings_js.
Variable path_extname : string -> string.
Variable full_is_over : bool.
Variable E : env.

Lemma fileFilter_Ok file b :
  fileFilter JS path_extname file = Ok b ->
  allowedTypes_test (toLowerCase JS (path_extname (f_originalname file))) = true
  /\ allowedTypes_test (f_mimetype file) = true.
Proof.
  unfold fileFilter.
  destruct (allowedTypes_test (toLowerCase JS _)), (allowedTypes_test (f_mimetype file));
    cbn; intros H; try discriminate H; split; reflexivity.
Qed.

(** What multer let through respected the count, the filter and the
    size limit, and is handed on in order. *)
Lemma upload_array_Ok files :
  forall left i done,
    upload_array JS path_extname full_is_over E left i files = Ok done ->
    (length files <= left)%nat
    /\ Forall (fun f => acceptable JS path_extname f = true
                        /\ (full_is_over = true -> f_size f <> fileSize)) files
    /\ map st_file done = files.
Proof.
  induction files as [|file rest IH]; intros left i done; cbn [upload_array].
  - intros H. inversion H. repeat split; [cbn; lia | constructor].
  - destruct (String.eqb (f_fieldname file) "attachments"); [|discriminate].
    destruct left as [|left']; [discriminate|].
    destruct (fileFilter JS path_extname file) as [b|e] eqn:Hfilter; [|discriminate].
    destruct ((fileSize <? f_size file)
              || (full_is_over && (f_size file =? fileSize))) eqn:Hsize;
      [discriminate|].
    destruct (upload_array JS path_extname full_is_over E left' (S i) rest)
      as [done'|e] eqn:Hrest; [|discriminate].
    intros H. inversion H; subst done. clear H.
    destruct (IH _ _ _ Hrest) as [Hlen [Hall Hmap]].
    destruct (fileFilter_Ok _ _ Hfilter) as [Hext Hmime].
    apply orb_false_iff in Hsize. destruct Hsize as [Hover Hfull].
    apply Z.ltb_ge in Hover.
    repeat split.
    + cbn [length]. lia.
    + constructor; [|assumption]. split.
      * unfold acceptable. rewrite Hext, Hmime.
        assert (H2 : (f_size file <=? fileSize) = true) by (apply Z.leb_le; lia).
        now rewrite H2.
      * intros Hflag Heq. rewrite Hflag in Hfull. cbn [andb] in Hfull.
        apply Z.eqb_neq in Hfull. contradiction.
    + cbn. now rewrite Hmap.
Qed.

Lemma upload_array_accepts files :
  forall left i,
    Forall (fun f => f_fieldname f = "attachments") files ->
    (length files <= left)%nat ->
    Forall (fun f => acceptable JS path_extname f = true
                     /\ (full_is_over = true -> f_size f <> fileSize)) files ->
    exists done, upload_array JS path_extname full_is_over E left i files = Ok done.
Proof.
  induction files as [|file rest IH]; intros left i Hfield Hlen Hacc;
    cbn [upload_array].
  - now exists [].
  - inversion Hfield as [|? ? Hname Hfield']; subst.
    inversion Hacc as [|? ? [Hfile Hfull] Hacc']; subst.
    rewrite Hname. cbn [String.eqb Ascii.eqb Bool.eqb].
    destruct left as [|left']; [cbn in Hlen; lia|].
    unfold acceptable in Hfile.
    apply andb_true_iff in Hfile. destruct Hfile as [Hfile Hmime].
    apply andb_true_iff in Hfile. destruct Hfile as [Hsize Hext].
    unfold fileFilter. rewrite Hext, Hmime. cbn [andb].
    apply Z.leb_le in Hsize.
    assert (Hover : (fileSize <? f_size file) = false) by (apply Z.ltb_ge; lia).
    assert (Hat : (full_is_over && (f_size file =? fileSize)) = false).
    { destruct full_is_over; [|reflexivity]. cbn [andb].
      apply Z.eqb_neq. now apply Hfull. }
    rewrite Hover, Hat. cbn [orb].
    destruct (IH left' (S i) Hfield') as [done Hdone];
      [cbn in Hlen; lia | assumption |].
    rewrite Hdone. eexists. reflexivity.
Qed.

(** A file of exactly [fileSize] bytes is refused where the parser
    counts it as over the limit. *)
Lemma upload_array_full files :
  forall left i,
    full_is_over = true ->
    Exists (fun f => f_size f = fileSize) files ->
    exists e, upload_array JS path_extname full_is_over E left i files = Throw e.
Proof.
  intros left i Hflag Hfull.
  destruct (upload_array JS path_extname full_is_over E left i files)
    as [done|e] eqn:Hup; [|now exists e].
  exfalso. destruct (upload_array_Ok _ _ _ _ Hup) as [_ [Hall _]].
  apply Exists_exists in Hfull. destruct Hfull as [f [Hin Hf]].
  rewrite Forall_forall in Hall. destruct (Hall f Hin) as [_ Hne].
  now apply Hne.
Qed.

End UploadFacts.

(** A file of exactly 5 242 880 bytes passes multer up to 1.4.4 and is
    refused by multer 1.4.5-lts. *)
Example file_of_exactly_fileSize :
  fst (createSupportRequest latin1_strings demo_extname true demo_env [full_photo]
         (Some "Help") (Some "It broke") None (Some "ann@x.com") None demo_world)
  = mkResponse 400
      (JObj [("success", JBool false);
             ("message", JStr "File upload error: File too large")])
  /\ status (fst (createSupportRequest latin1_strings demo_extname false demo_env
                    [full_photo] (Some "Help") (Some "It broke") None
                    (Some "ann@x.com") None demo_world))
     = 201.
Proof. split; reflexivity. Qed.

(** C9: [createSupportRequest] takes at most five attachment files, each
    of at most 5 MB, whose extension and mimetype both pass the
    [jpeg|jpg|png|gif|pdf|doc|docx|txt] test.  An upload with more than
    five files, a file over 5 MB or a file failing one of the two tests
    is answered 400 and nothing in the store changes; whatever upload
    reaches the handler has at most five files, each of at most 5 MB and
    passing both tests; and an upload of at most five passing files of
    at most 5 MB does reach it.  Only for a file of exactly 5 MB does
    the version of the parser matter: where it counts such a file as
    over the limit, the upload is answered 400 too, and then the files
    that reach the handler are short of 5 MB. *)
Theorem upload_limits
    (JS : strings_js) (path_extname : string -> string) (full_is_over : bool)
    (E : env) (files : list filePart)
    (subject description phoneNumber email : option string)
    (req_user : option nat) (w : world) :
  ((maxCount < length files)%nat
   \/ Exists (fun f => acceptable JS path_extname f = false) files
   \/ (full_is_over = true /\ Exists (fun f => f_size f = fileSize) files) ->
   status (fst (createSupportRequest JS path_extname full_is_over E files subject
                  description phoneNumber email req_user w)) = 400
   /\ snd (createSupportRequest JS path_extname full_is_over E files subject
             description phoneNumber email req_user w) = w)
  /\
  (forall req_files,
      upload JS path_extname full_is_over E files = Ok req_files ->
      (length files <= 5)%nat
      /\ Forall (fun f => f_size f <= 5 * 1024 * 1024
                          /\ (full_is_over = true -> f_size f < 5 * 1024 * 1024)
                          /\ allowedTypes_test
                               (toLowerCase JS (path_extname (f_originalname f)))
                             = true
                          /\ allowedTypes_test (f_mimetype f) = true) files
      /\ map st_file req_files = files)
  /\
  (Forall (fun f => f_fieldname f = "attachments") files ->
   (length files <= maxCount)%nat ->
   Forall (fun f => acceptable JS path_extname f = true) files ->
   full_is_over = false
   \/ Forall (fun f => f_size f < 5 * 1024 * 1024) files ->
   exists req_files,
     upload JS path_extname full_is_over E files = Ok req_files
     /\ map st_file req_files = files).
Proof.
  split; [|split].
  - intros Hbad. unfold createSupportRequest.
    destruct (upload JS path_extname full_is_over E files) as [req_files|err] eqn:Hup.
    + exfalso. unfold upload in Hup.
      destruct (upload_array_Ok _ _ _ _ _ _ _ _ Hup) as [Hlen [Hall _]].
      rewrite Forall_forall in Hall.
      destruct Hbad as [Hmany|[Hsome|[Hflag Hfull]]]; [lia| |].
      * apply Exists_exists in Hsome. destruct Hsome as [f [Hin Hf]].
        destruct (Hall f Hin) as [Hacc _]. congruence.
      * apply Exists_exists in Hfull. destruct Hfull as [f [Hin Hf]].
        destruct (Hall f Hin) as [_ Hne]. now apply Hne.
    + destruct (String.eqb (e_name err) "MulterError"); split; reflexivity.
  - intros req_files Hup. unfold upload in Hup.
    destruct (upload_array_Ok _ _ _ _ _ _ _ _ Hup) as [Hlen [Hall Hmap]].
    split; [exact Hlen|]. split; [|exact Hmap].
    eapply Forall_impl; [|exact Hall]. intros f [Hf Hne]. unfold acceptable in Hf.
    apply andb_true_iff in Hf. destruct Hf as [Hf Hmime].
    apply andb_true_iff in Hf. destruct Hf as [Hsize Hext].
    apply Z.leb_le in Hsize. unfold fileSize in Hsize, Hne.
    repeat split; try assumption.
    intros Hflag. specialize (Hne Hflag). lia.
  - intros Hfield Hlen Hacc Hshort. unfold upload.
    assert (Hall : Forall (fun f => acceptable JS path_extname f = true
                                    /\ (full_is_over = true -> f_size f <> fileSize))
                          files).
    { rewrite Forall_forall in *. intros f Hin. split; [now apply Hacc|].
      intros Hflag. destruct Hshort as [Hoff|Hshort]; [congruence|].
      specialize (Hshort f Hin). unfold fileSize. lia. }
    destruct (upload_array_accepts JS path_extname full_is_over E files maxCount 0
                Hfield Hlen Hall) as [done Hdone].
    exists done. split; [assumption|].
    now destruct (upload_array_Ok _ _ _ _ _ _ _ _ Hdone) as [_ [_ Hmap]].
Qed.

Lemma upload_limits_witness :
  (status (fst (createSupportRequest latin1_strings demo_extname true demo_env
                  [photo; huge_photo]
                  (Some "Help") (Some "It broke") None (Some "ann@x.com") None
                  demo_world)) = 400
   /\ snd (createSupportRequest latin1_strings demo_extname true demo_env
             [photo; huge_photo]
             (Some "Help") (Some "It broke") None (Some "ann@x.com") None
             demo_world) = demo_world)
  /\ (status (fst (createSupportRequest latin1_strings demo_extname true demo_env
                     [full_photo]
                     (Some "Help") (Some "It broke") None (Some "ann@x.com") None
                     demo_world)) = 400
      /\ snd (createSupportRequest latin1_strings demo_extname true demo_env
                [full_photo]
                (Some "Help") (Some "It broke") None (Some "ann@x.com") None
                demo_world) = demo_world)
  /\ (exists req_files,
         upload latin1_strings demo_extname true demo_env [photo; photo]
         = Ok req_files
         /\ map st_file req_files = [photo; photo])
  /\ exists req_files,
      upload latin1_strings demo_extname false demo_env [photo; full_photo]
      = Ok req_files
      /\ map st_file req_files = [photo; full_photo].
Proof.
  split; [|split; [|split]].
  - destruct (upload_limits latin1_strings demo_extname true demo_env
                [photo; huge_photo]
                (Some "Help") (Some "It broke") None (Some "ann@x.com") None
                demo_world) as [H _].
    apply H. right. left. apply Exists_cons_tl. apply Exists_cons_hd. reflexivity.
  - destruct (upload_limits latin1_strings demo_extname true demo_env [full_photo]
                (Some "Help") (Some "It broke") None (Some "ann@x.com") None
                demo_world) as [H _].
    apply H. right. right. split; [reflexivity|].
    apply Exists_cons_hd. reflexivity.
  - destruct (upload_limits latin1_strings demo_extname true demo_env [photo; photo]
                None None None None None demo_world) as [_ [_ H]].
    apply H.
    + repeat constructor.
    + unfold maxCount. cbn. lia.
    + repeat constructor.
    + right. repeat constructor.
  - destruct (upload_limits latin1_strings demo_extname false demo_env
                [photo; full_photo] None None None None None demo_world)
      as [_ [_ H]].
    apply H.
    + repeat constructor.
    + unfold maxCount. cbn. lia.
    + repeat constructor.
    + left. reflexivity.
Defined.

(** ** Sign-up, login and tokens together *)

Lemma same_email_key a b u :
  email_key a = email_key b -> same_email a u = same_email b u.
Proof. intros H. unfold same_email. now rewrite H. Qed.

Lemma find_snoc {A} (p : A -> bool) (l : list A) (x : A) :
  find p l = None -> find p (l ++ [x]) = if p x then Some x else None.
Proof.
  induction l as [|y l IH]; cbn [find app]; [reflexivity|].
  destruct (p y); [discriminate | exact IH].
Qed.

Lemma find_same_key a b l :
  email_key a = email_key b -> find (same_email a) l = find (same_email b) l.
Proof.
  intros H. induction l as [|y l IH]; cbn [find]; [reflexivity|].
  rewrite (same_email_key a b y H). now rewrite IH.
Qed.

(** What a sign-up on an unused email stores, with the store up and
    whether or not a token can be signed afterwards. *)
Lemma signup_stores JWT_SECRET bcrypt_hash E w name email password :
  name <> "" -> email <> "" -> password <> "" ->
  db_fault E 0 = None -> db_fault E 1 = None ->
  find (same_email email) (users w) = None ->
  users (snd (signup JWT_SECRET bcrypt_hash E (Some name) (Some email)
                     (Some password) w))
  = (users w ++ [mkUser (next_id w) name email
                        (Some (bcrypt_hash password (salt E)))
                        None local (now_ms E)])%list.
Proof.
  intros Hn He Hp H0 H1 Hf. unfold signup, try_catch, bind, lift.
  rewrite (present_nonempty _ Hn), (present_nonempty _ He), (present_nonempty _ Hp).
  rewrite (findByEmail_up _ _ _ _ H0), Hf.
  unfold User_create, db_call. cbn [nu_name nu_email].
  apply String.eqb_neq in Hn, He. rewrite Hn, He, H1.
  rewrite (find_same_email_None _ _ Hf). cbn [u_id].
  destruct (generateToken JWT_SECRET E (next_id w)); reflexivity.
Qed.

(** X1: with a signing key configured, after a successful sign-up a
    login with the same password and the same email in any letter case
    succeeds and issues a token for the new identity's id, provided the
    hasher verifies what it hashed. *)
Theorem signup_then_login
    (JWT_SECRET : string) (bcrypt_hash : string -> string -> string)
    (bcrypt_compare : string -> string -> bool)
    (E E' : env) (w : world) (name email email' password : string) :
  JWT_SECRET <> "" ->
  name <> "" -> email <> "" -> email' <> "" -> password <> "" ->
  email_key email' = email_key email ->
  db_fault E 0 = None -> db_fault E 1 = None -> db_fault E' 0 = None ->
  find (same_email email) (users w) = None ->
  bcrypt_compare password (bcrypt_hash password (salt E)) = true ->
  let w' := snd (signup JWT_SECRET bcrypt_hash E (Some name) (Some email)
                        (Some password) w) in
  login JWT_SECRET bcrypt_compare E' (Some email') (Some password) w'
  = (mkResponse 200
       (JObj [("success", JBool true);
              ("message", JStr "Login successful");
              ("data",
               JObj [("user",
                      JObj [("id", JNum (Z.of_nat (next_id w)));
                            ("name", JStr name); ("email", JStr email)]);
                     ("token",
                      JTok (jwt_signed
                              (mkClaims (next_id w) (now_ms E' / 1000)
                                        (now_ms E' / 1000 + 2592000))
                              JWT_SECRET))])]),
     w').
Proof.
  intros Hk Hn He He' Hp Hkey H0 H1 H0' Hf Hcmp. cbv zeta.
  pose proof (signup_stores JWT_SECRET bcrypt_hash _ _ _ _ _ Hn He Hp H0 H1 Hf)
    as Hstored.
  set (w' := snd (signup JWT_SECRET bcrypt_hash E (Some name) (Some email)
                         (Some password) w)) in *.
  unfold login, try_catch, bind, lift.
  rewrite (present_nonempty _ He'), (present_nonempty _ Hp).
  rewrite (findByEmail_up _ _ _ _ H0'), Hstored.
  rewrite (find_same_key _ _ _ Hkey), (find_snoc _ _ _ Hf).
  unfold same_email at 1. cbn [u_email]. rewrite String.eqb_refl.
  cbn [u_authProvider provider_eqb andb u_password bcrypt_compare_js].
  rewrite Hcmp. cbn [negb u_id].
  now rewrite (generateToken_configured _ _ _ Hk).
Qed.

Lemma signup_then_login_witness :
  let w' := snd (signup "k" demo_hash demo_env (Some "Cy") (Some "Cy@x.com")
                        (Some "hunter2") demo_world) in
  login "k" demo_compare demo_env (Some "cy@X.COM") (Some "hunter2") w'
  = (mkResponse 200
       (JObj [("success", JBool true);
              ("message", JStr "Login successful");
              ("data",
               JObj [("user",
                      JObj [("id", JNum 2);
                            ("name", JStr "Cy"); ("email", JStr "Cy@x.com")]);
                     ("token",
                      JTok (jwt_signed (mkClaims 2 1700000000 1702592000) "k"))])]),
     w').
Proof.
  apply (signup_then_login "k" demo_hash demo_compare demo_env demo_env
           demo_world "Cy" "Cy@x.com" "cy@X.COM" "hunter2");
    try discriminate; reflexivity.
Defined.

(** X2: with a signing key configured, [generateToken] returns a token,
    and [verifyToken] accepts that token for a stored identity exactly
    while fewer than 2 592 000 whole seconds have passed since it was
    issued; from then on it answers 401. *)
Theorem issued_token_window
    (JWT_SECRET : string) (E E' : env) (w : world) (u : user) :
  JWT_SECRET <> "" ->
  db_fault E' 0 = None ->
  find (fun d => Nat.eqb (u_id d) (u_id u)) (users w) = Some u ->
  exists token,
    generateToken JWT_SECRET E (u_id u) = Ok token
    /\ verifyToken JWT_SECRET E' (Some token) w
       = (if now_ms E' / 1000 <? now_ms E / 1000 + 2592000
          then mkResponse 200
                 (JObj [("success", JBool true);
                        ("data",
                         JObj [("user",
                                JObj [("id", JNum (Z.of_nat (u_id u)));
                                      ("name", JStr (u_name u));
                                      ("email", JStr (u_email u))])])])
          else mkResponse 401
                 (JObj [("success", JBool false);
                        ("message", JStr "Invalid or expired token")]),
          w).
Proof.
  intros Hk H0 Hf. eexists. split; [apply (generateToken_configured _ _ _ Hk)|].
  unfold verifyToken, try_catch, bind, lift.
  cbn [present_token jwt_verify c_exp c_id].
  pose proof Hk as Hk'. apply String.eqb_neq in Hk'. rewrite Hk'.
  rewrite String.eqb_refl. cbn [negb].
  destruct (now_ms E' / 1000 <? now_ms E / 1000 + 2592000) eqn:Hlt.
  - apply Z.ltb_lt in Hlt.
    assert (Hle : (now_ms E / 1000 + 2592000 <=? now_ms E' / 1000) = false)
      by (apply Z.leb_gt; lia).
    rewrite Hle, (findById_up _ _ _ _ H0). cbn [c_id]. now rewrite Hf.
  - apply Z.ltb_ge in Hlt.
    assert (Hle : (now_ms E / 1000 + 2592000 <=? now_ms E' / 1000) = true)
      by (apply Z.leb_le; lia).
    now rewrite Hle.
Qed.

Lemma issued_token_window_witness :
  exists token,
    generateToken "k" relogin_env 1 = Ok token
    /\ verifyToken "k" demo_env (Some token) demo_world
       = (mkResponse 200
            (JObj [("success", JBool true);
                   ("data",
                    JObj [("user",
                           JObj [("id", JNum 1); ("name", JStr "Bob");
                                 ("email", JStr "bob@x.com")])])]),
          demo_world).
Proof.
  apply (issued_token_window "k" relogin_env demo_env demo_world bob);
    try discriminate; reflexivity.
Defined.

(** X3: [verifyToken] answers 200 only for a token signed with
    [JWT_SECRET], not yet expired, whose id is the id of a stored
    identity; the body is then that identity's summary. *)
Theorem verifyToken_accepts_only_valid
    (JWT_SECRET : string) (E : env) (w : world) (token : option jwt) :
  status (fst (verifyToken JWT_SECRET E token w)) = 200 ->
  exists payload u,
    token = Some (jwt_signed payload JWT_SECRET)
    /\ now_ms E / 1000 < c_exp payload
    /\ find (fun d => Nat.eqb (u_id d) (c_id payload)) (users w) = Some u
    /\ body (fst (verifyToken JWT_SECRET E token w))
       = JObj [("success", JBool true);
               ("data",
                JObj [("user",
                       JObj [("id", JNum (Z.of_nat (u_id u)));
                             ("name", JStr (u_name u));
                             ("email", JStr (u_email u))])])].
Proof.
  unfold verifyToken, try_catch, bind, lift, findById, db_call.
  destruct token as [[raw|payload key]|]; cbn [present_token].
  - destruct raw; [cbn; discriminate|].
    unfold jwt_verify. destruct (String.eqb _ ""); [cbn; discriminate|].
    destruct (Nat.eqb _ 3); cbn; discriminate.
  - unfold jwt_verify.
    destruct (String.eqb JWT_SECRET ""); [cbn; discriminate|].
    destruct (String.eqb key JWT_SECRET) eqn:Hkey;
      cbn [negb]; [|cbn; discriminate].
    apply String.eqb_eq in Hkey. subst key.
    destruct (c_exp payload <=? now_ms E / 1000) eqn:Hexp; [cbn; discriminate|].
    apply Z.leb_gt in Hexp.
    destruct (db_fault E 0); [cbn; discriminate|].
    destruct (find _ (users w)) as [u|] eqn:Hf; [|cbn; discriminate].
    intros _. exists payload, u. repeat split; assumption || reflexivity.
  - cbn. discriminate.
Qed.

Lemma verifyToken_accepts_only_valid_witness :
  exists payload u,
    Some (jwt_signed (mkClaims 0 1699999000 1702591000) "k")
    = Some (jwt_signed payload "k")
    /\ now_ms demo_env / 1000 < c_exp payload
    /\ find (fun d => Nat.eqb (u_id d) (c_id payload)) (users demo_world) = Some u
    /\ body (fst (verifyToken "k" demo_env
                    (Some (jwt_signed (mkClaims 0 1699999000 1702591000) "k"))
                    demo_world))
       = JObj [("success", JBool true);
               ("data",
                JObj [("user",
                       JObj [("id", JNum (Z.of_nat (u_id u)));
                             ("name", JStr (u_name u));
                             ("email", JStr (u_email u))])])].
Proof.
  apply (verifyToken_accepts_only_valid "k" demo_env demo_world
           (Some (jwt_signed (mkClaims 0 1699999000 1702591000) "k"))).
  reflexivity.
Defined.

(** What a first federated login stores, with the store up and whether
    or not a token can be signed afterwards. *)
Lemma googleAuth_stores JWT_SECRET E w credential email name sub :
  credential <> "" -> email <> "" -> name <> "" ->
  verifyIdToken E credential = Ok (email, name, sub) ->
  db_fault E 0 = None -> db_fault E 1 = None ->
  find (same_email email) (users w) = None ->
  users (snd (googleAuth JWT_SECRET E (Some credential) w))
  = (users w ++ [mkUser (next_id w) name email None (Some sub) google
                        (now_ms E)])%list.
Proof.
  intros Hc He Hn Hv H0 H1 Hf. unfold googleAuth, try_catch, bind, lift.
  rewrite (present_nonempty _ Hc), Hv, (findByEmail_up _ _ _ _ H0), Hf.
  unfold User_create, db_call. cbn [nu_name nu_email].
  apply String.eqb_neq in Hn, He. rewrite Hn, He, H1.
  rewrite (find_same_email_None _ _ Hf). cbn [u_id].
  destruct (generateToken JWT_SECRET E (next_id w)); reflexivity.
Qed.

Lemma googleAuth_creates JWT_SECRET E w credential email name sub :
  JWT_SECRET <> "" ->
  credential <> "" -> email <> "" -> name <> "" ->
  verifyIdToken E credential = Ok (email, name, sub) ->
  db_fault E 0 = None -> db_fault E 1 = None ->
  find (same_email email) (users w) = None ->
  fst (googleAuth JWT_SECRET E (Some credential) w)
  = mkResponse 200
      (JObj [("success", JBool true);
             ("message", JStr "Google authentication successful");
             ("data",
              JObj [("user",
                     JObj [("id", JNum (Z.of_nat (next_id w)));
                           ("name", JStr name); ("email", JStr email)]);
                    ("token",
                     JTok (jwt_signed
                             (mkClaims (next_id w) (now_ms E / 1000)
                                       (now_ms E / 1000 + 2592000))
                             JWT_SECRET))])]).
Proof.
  intros Hk Hc He Hn Hv H0 H1 Hf. unfold googleAuth, try_catch, bind, lift.
  rewrite (present_nonempty _ Hc), Hv, (findByEmail_up _ _ _ _ H0), Hf.
  unfold User_create, db_call. cbn [nu_name nu_email].
  apply String.eqb_neq in Hn, He. rewrite Hn, He, H1.
  rewrite (find_same_email_None _ _ Hf). cbn [u_id].
  now rewrite (generateToken_configured _ _ _ Hk).
Qed.

(** X4: a federated login for an email nobody holds stores a new
    [google] identity with the asserted subject id and no password and,
    with a signing key configured, answers 200 with a token for it; a
    password login on that email is then refused with 401 "Please sign
    in with Google", whatever the password. *)
Theorem googleAuth_creates_federated
    (JWT_SECRET : string) (bcrypt_compare : string -> string -> bool)
    (E : env) (w : world) (credential email name sub : string) :
  JWT_SECRET <> "" ->
  credential <> "" -> email <> "" -> name <> "" ->
  verifyIdToken E credential = Ok (email, name, sub) ->
  db_fault E 0 = None -> db_fault E 1 = None ->
  find (same_email email) (users w) = None ->
  let created := mkUser (next_id w) name email None (Some sub) google (now_ms E) in
  let r := googleAuth JWT_SECRET E (Some credential) w in
  fst r = mkResponse 200
            (JObj [("success", JBool true);
                   ("message", JStr "Google authentication successful");
                   ("data",
                    JObj [("user",
                           JObj [("id", JNum (Z.of_nat (next_id w)));
                                 ("name", JStr name); ("email", JStr email)]);
                          ("token",
                           JTok (jwt_signed
                                   (mkClaims (next_id w) (now_ms E / 1000)
                                             (now_ms E / 1000 + 2592000))
                                   JWT_SECRET))])])
  /\ users (snd r) = (users w ++ [created])%list
  /\ forall (E' : env) (password : string),
      password <> "" -> db_fault E' 0 = None ->
      login JWT_SECRET bcrypt_compare E' (Some email) (Some password) (snd r)
      = (mkResponse 401 (JObj [("success", JBool false);
                               ("message", JStr "Please sign in with Google")]),
         snd r).
Proof.
  intros Hk Hc He Hn Hv H0 H1 Hf. cbv zeta.
  pose proof (googleAuth_stores JWT_SECRET _ _ _ _ _ _ Hc He Hn Hv H0 H1 Hf)
    as Hstored.
  split; [now apply (googleAuth_creates _ _ _ _ _ _ sub)|]. split; [exact Hstored|].
  intros E' password Hp H0'. unfold login, try_catch, bind.
  rewrite (present_nonempty _ He), (present_nonempty _ Hp).
  rewrite (findByEmail_up _ _ _ _ H0'), Hstored.
  rewrite (find_snoc _ _ _ Hf).
  unfold same_email at 1. cbn [u_email]. now rewrite String.eqb_refl.
Qed.

Lemma googleAuth_creates_federated_witness :
  let created := mkUser 0 "Ann" "ann@x.com" None (Some "sub-42") google
                        1700000000000 in
  let r := googleAuth "k" demo_env (Some "good-assertion") empty_world in
  fst r = mkResponse 200
            (JObj [("success", JBool true);
                   ("message", JStr "Google authentication successful");
                   ("data",
                    JObj [("user",
                           JObj [("id", JNum 0);
                                 ("name", JStr "Ann"); ("email", JStr "ann@x.com")]);
                          ("token",
                           JTok (jwt_signed (mkClaims 0 1700000000 1702592000)
                                            "k"))])])
  /\ users (snd r) = [created]
  /\ forall (E' : env) (password : string),
      password <> "" -> db_fault E' 0 = None ->
      login "k" demo_compare E' (Some "ann@x.com") (Some password) (snd r)
      = (mkResponse 401 (JObj [("success", JBool false);
                               ("message", JStr "Please sign in with Google")]),
         snd r).
Proof.
  apply (googleAuth_creates_federated "k" demo_compare demo_env empty_world
           "good-assertion" "ann@x.com" "Ann" "sub-42");
    try discriminate; reflexivity.
Defined.

(** X5: a federated login repeated with an assertion for the same
    identity changes nothing further in the [User] collection: whatever
    the first call stored or linked is what the second one finds. *)
Theorem googleAuth_twice
    (JWT_SECRET : string) (E1 E2 : env) (w : world)
    (credential : string) (payload : string * string * string) :
  verifyIdToken E1 credential = Ok payload ->
  verifyIdToken E2 credential = Ok payload ->
  db_fault E1 0 = None -> db_fault E1 1 = None ->
  let w1 := snd (googleAuth JWT_SECRET E1 (Some credential) w) in
  users (snd (googleAuth JWT_SECRET E2 (Some credential) w1)) = users w1.
Proof.
  intros Hv1 Hv2 H0 H1. cbv zeta. destruct payload as [[email name] sub].
  destruct credential as [|c cs];
    [reflexivity|]. set (credential := String c cs) in *.
  assert (Hstep1 :
    let w1 := snd (googleAuth JWT_SECRET E1 (Some credential) w) in
    users w1 = users w /\ (find (same_email email) (users w) = None
                           \/ exists u, find (same_email email) (users w) = Some u
                                        /\ u_authProvider u = google)
    \/ exists u, find (same_email email) (users w1) = Some u
                 /\ u_authProvider u = google).
  { cbv zeta. unfold googleAuth, try_catch, bind, lift, ret.
    cbn [present credential]. rewrite Hv1, (findByEmail_up _ _ _ _ H0).
    destruct (find (same_email email) (users w)) as [u|] eqn:Hf.
    - destruct (u_authProvider u) eqn:Hprov; cbn [provider_eqb].
      + right. unfold User_save, db_call. rewrite H1.
        exists (link_google u sub). split; [|reflexivity].
        destruct (generateToken JWT_SECRET E1 _); cbn [snd users caught write_console];
          now apply find_after_save.
      + left. split; [|right; now exists u].
        destruct (generateToken JWT_SECRET E1 _); reflexivity.
    - unfold User_create, db_call, throw. cbn [nu_name nu_email].
      destruct (String.eqb name ""); [left; split; [reflexivity | now left]|].
      destruct (String.eqb email ""); [left; split; [reflexivity | now left]|].
      rewrite H1, (find_same_email_None _ _ Hf).
      right. eexists.
      destruct (generateToken JWT_SECRET E1 _); cbn [snd users caught write_console];
        rewrite (find_snoc _ _ _ Hf);
        unfold same_email at 1; cbn [u_email]; rewrite String.eqb_refl;
        split; reflexivity. }
  cbv zeta in Hstep1.
  set (w1 := snd (googleAuth JWT_SECRET E1 (Some credential) w)) in *.
  assert (Hgoogle : forall u, find (same_email email) (users w1) = Some u ->
                              u_authProvider u = google ->
                              users (snd (googleAuth JWT_SECRET E2 (Some credential) w1))
                              = users w1).
  { intros u Hf Hprov. unfold googleAuth, try_catch, bind, lift, ret, findByEmail, db_call.
    cbn [present credential]. rewrite Hv2.
    destruct (db_fault E2 0); [reflexivity|]. rewrite Hf, Hprov.
    cbn [provider_eqb]. destruct (generateToken JWT_SECRET E2 _); reflexivity. }
  destruct Hstep1 as [[Hsame [Hnone | [u [Hf Hprov]]]] | [u [Hf Hprov]]].
  - (* the first call stored nothing: the second fails in the same way *)
    unfold googleAuth at 1. unfold try_catch, bind, lift, ret, findByEmail, db_call.
    cbn [present credential]. rewrite Hv2.
    destruct (db_fault E2 0); [reflexivity|]. rewrite Hsame, Hnone.
    assert (Hw1 : String.eqb name "" = true \/ String.eqb email "" = true).
    { subst w1. revert Hsame.
      unfold googleAuth, try_catch, bind, lift, ret.
      cbn [present credential]. rewrite Hv1, (findByEmail_up _ _ _ _ H0), Hnone.
      unfold User_create, db_call, throw. cbn [nu_name nu_email].
      destruct (String.eqb name ""); [now left|].
      destruct (String.eqb email ""); [now right|].
      rewrite H1, (find_same_email_None _ _ Hnone).
      destruct (generateToken JWT_SECRET E1 _);
        cbn [snd users caught write_console]; intros Habs; exfalso;
        apply (f_equal (@length user)) in Habs; rewrite length_app in Habs;
        cbn in Habs; lia. }
    unfold User_create, throw. cbn [nu_name nu_email].
    destruct Hw1 as [Hn|He]; rewrite ?Hn.
    + unfold caught. cbn [snd users write_console]. exact Hsame.
    + destruct (String.eqb name ""); rewrite ?He;
        unfold caught; cbn [snd users write_console]; exact Hsame.
  - apply (Hgoogle u); [now rewrite Hsame | assumption].
  - now apply (Hgoogle u).
Qed.

Lemma googleAuth_twice_witness :
  let w1 := snd (googleAuth "k" demo_env (Some "good-assertion") demo_world) in
  users (snd (googleAuth "k" demo_env (Some "good-assertion") w1)) = users w1.
Proof.
  apply (googleAuth_twice "k" demo_env demo_env demo_world "good-assertion"
           ("ann@x.com", "Ann", "sub-42")); reflexivity.
Defined.

(** ** What the handlers leave alone *)

(** X6: no auth handler touches the tickets, and login, verify and
    getProfile leave the [User] collection and the id counter as they
    found them, whatever the request and whether or not the store
    answers. *)
Theorem auth_handlers_frame
    (JWT_SECRET : string) (bcrypt_hash : string -> string -> string)
    (bcrypt_compare : string -> string -> bool)
    (E : env) (r : request) (w : world) :
  let w' := snd (handle JWT_SECRET bcrypt_hash bcrypt_compare E r w) in
  requests w' = requests w
  /\ match r with
     | Signup _ _ _ | GoogleAuth _ => True
     | Login _ _ | VerifyToken _ | GetUserProfile _ =>
         users w' = users w /\ next_id w' = next_id w
     end.
Proof.
  destruct r; cbn [handle]; run_handler; repeat split; reflexivity.
Qed.

(** X7: [verifyToken] never writes, not even to the console, and never
    answers 500: when the store rejects the lookup for a token that
    verifies, the answer is the same 401 "Invalid or expired token" as
    for a bad token. *)
Theorem verifyToken_silent
    (JWT_SECRET : string) (E : env) (w : world) (token : option jwt) :
  snd (verifyToken JWT_SECRET E token w) = w
  /\ In (status (fst (verifyToken JWT_SECRET E token w))) [200; 400; 401]
  /\ forall t payload e,
      present_token token = Some t ->
      jwt_verify t JWT_SECRET (now_ms E) = Ok payload ->
      db_fault E 0 = Some e ->
      fst (verifyToken JWT_SECRET E token w)
      = mkResponse 401
       (JObj [("success", JBool false);
              ("message", JStr "Invalid or expired token")]).
Proof.
  split; [|split].
  - run_handler; reflexivity.
  - run_handler; cbn; tauto.
  - intros t payload e Ht Hv Hdb.
    unfold verifyToken, try_catch, bind, lift, findById, db_call.
    now rewrite Ht, Hv, Hdb.
Qed.

Lemma verifyToken_silent_witness :
  fst (verifyToken "k" down_env
         (Some (jwt_signed (mkClaims 0 1700000000 1702592000) "k")) demo_world)
  = mkResponse 401
       (JObj [("success", JBool false);
              ("message", JStr "Invalid or expired token")]).
Proof.
  destruct (verifyToken_silent "k" down_env demo_world
              (Some (jwt_signed (mkClaims 0 1700000000 1702592000) "k")))
    as [_ [_ H]].
  apply (H (jwt_signed (mkClaims 0 1700000000 1702592000) "k")
           (mkClaims 0 1700000000 1702592000) refused); reflexivity.
Defined.

(** ** Credentials of the stored identities *)

Lemma handle_credentials JWT_SECRET bcrypt_hash bcrypt_compare E r w :
  Forall credentials_ok (users w) ->
  Forall credentials_ok
         (users (snd (handle JWT_SECRET bcrypt_hash bcrypt_compare E r w))).
Proof.
  intros Hw.
  destruct r; cbn [handle]; run_handler; cbn [snd users write_console];
    try assumption.
  all: first
    [ apply Forall_app; split; [assumption|];
      constructor; [|constructor]; unfold credentials_ok; cbn; discriminate
    | unfold save_doc; apply Forall_forall; intros d Hd;
      apply in_map_iff in Hd; destruct Hd as [d' [Heq Hin]];
      rewrite Forall_forall in Hw;
      match goal with
      | _ : context [Nat.eqb (u_id d') ?i] |- _ =>
          destruct (Nat.eqb (u_id d') i); subst d;
          [unfold credentials_ok; cbn; discriminate | now apply Hw]
      end ].
Qed.

(** X8: in every store reached from the empty one by serving requests,
    a [local] identity has a password hash and a [google] identity has a
    subject id. *)
Theorem credentials_invariant
    (JWT_SECRET : string) (bcrypt_hash : string -> string -> string)
    (bcrypt_compare : string -> string -> bool)
    (trace : list (env * request)) :
  Forall credentials_ok
         (users (serve JWT_SECRET bcrypt_hash bcrypt_compare trace empty_world)).
Proof.
  assert (H : forall w, Forall credentials_ok (users w) ->
                        Forall credentials_ok
                          (users (serve JWT_SECRET bcrypt_hash bcrypt_compare trace w))).
  { induction trace as [|[E r] rest IH]; intros w Hw; cbn [serve]; [exact Hw|].
    apply IH. now apply handle_credentials. }
  apply H. constructor.
Qed.



Lemma generateToken_Ok JWT_SECRET E id token :
  generateToken JWT_SECRET E id = Ok token ->
  JWT_SECRET <> ""
  /\ token = jwt_signed (mkClaims id (now_ms E / 1000) (now_ms E / 1000 + 2592000))
                        JWT_SECRET.
Proof.
  destruct (String.eqb JWT_SECRET "") eqn:Hk.
  - apply String.eqb_eq in Hk. subst. rewrite generateToken_unconfigured.
    discriminate.
  - apply String.eqb_neq in Hk. rewrite (generateToken_configured _ _ _ Hk).
    intros H. inversion H. now split.
Qed.

(** X10: [login] answers 200 only when a stored identity matches the
    email and its stored hash verifies the password given (and a signing
    key is configured); the token in the answer is then for that
    identity's id, issued now for 2 592 000 s. *)
Theorem login_accepts_only_verified
    (JWT_SECRET : string) (bcrypt_compare : string -> string -> bool)
    (E : env) (w : world) (email password : option string) :
  status (fst (login JWT_SECRET bcrypt_compare E email password w)) = 200 ->
  exists e p u h,
    email = Some e /\ password = Some p
    /\ find (same_email e) (users w) = Some u
    /\ u_password u = Some h
    /\ bcrypt_compare p h = true
    /\ JWT_SECRET <> ""
    /\ fst (login JWT_SECRET bcrypt_compare E email password w)
       = mkResponse 200
           (JObj [("success", JBool true);
                  ("message", JStr "Login successful");
                  ("data",
                   JObj [("user",
                          JObj [("id", JNum (Z.of_nat (u_id u)));
                                ("name", JStr (u_name u));
                                ("email", JStr (u_email u))]);
                         ("token",
                          JTok (jwt_signed
                                  (mkClaims (u_id u) (now_ms E / 1000)
                                            (now_ms E / 1000 + 2592000))
                                  JWT_SECRET))])]).
Proof.
  unfold login, try_catch, bind, lift, findByEmail, db_call.
  destruct (present email) as [e|] eqn:He; [|cbn; discriminate].
  destruct (present password) as [p|] eqn:Hp; [|cbn; discriminate].
  apply present_Some in He, Hp. destruct He as [He _], Hp as [Hp _].
  destruct (db_fault E 0); [cbn; discriminate|].
  destruct (find (same_email e) (users w)) as [u|] eqn:Hf; [|cbn; discriminate].
  destruct (provider_eqb (u_authProvider u) google && falsy (u_password u));
    [cbn; discriminate|].
  destruct (u_password u) as [h|] eqn:Hh; cbn [bcrypt_compare_js];
    [|cbn; discriminate].
  destruct (bcrypt_compare p h) eqn:Hcmp; [|cbn; discriminate].
  cbn [negb].
  destruct (generateToken JWT_SECRET E (u_id u)) as [token|err] eqn:Htok;
    [|cbn; discriminate].
  apply generateToken_Ok in Htok. destruct Htok as [Hk Htok]. subst token.
  intros _. exists e, p, u, h. repeat split; assumption || reflexivity.
Qed.

Lemma login_accepts_only_verified_witness :
  exists e p u h,
    Some "ann@x.com" = Some e /\ Some "secret123" = Some p
    /\ find (same_email e) (users demo_world) = Some u
    /\ u_password u = Some h
    /\ demo_compare p h = true
    /\ "k" <> ""
    /\ fst (login "k" demo_compare demo_env (Some "ann@x.com") (Some "secret123")
                  demo_world)
       = mkResponse 200
           (JObj [("success", JBool true);
                  ("message", JStr "Login successful");
                  ("data",
                   JObj [("user",
                          JObj [("id", JNum (Z.of_nat (u_id u)));
                                ("name", JStr (u_name u));
                                ("email", JStr (u_email u))]);
                         ("token",
                          JTok (jwt_signed
                                  (mkClaims (u_id u) (now_ms demo_env / 1000)
                                            (now_ms demo_env / 1000 + 2592000))
                                  "k"))])]).
Proof.
  apply (login_accepts_only_verified "k" demo_compare demo_env demo_world
           (Some "ann@x.com") (Some "secret123")).
  reflexivity.
Defined.

(** ** Support tickets *)

Lemma lower_latin1_idem c : lower_latin1 (lower_latin1 c) = lower_latin1 c.
Proof. destruct c as [[] [] [] [] [] [] [] []]; reflexivity. Qed.

Lemma fold_latin1_idem s : fold_latin1 (fold_latin1 s) = fold_latin1 s.
Proof.
  induction s as [|c s IH]; cbn [fold_latin1]; [reflexivity|].
  now rewrite lower_latin1_idem, IH.
Qed.

(** With code units below 256 a valid document's email is its own
    lower-case form. *)
Lemma valid_doc_latin1 d :
  valid_doc latin1_strings d -> fold_latin1 (sr_email d) = sr_email d.
Proof.
  intros [_ _ _ _ [raw Hraw] _ _]. rewrite Hraw. cbn [toLowerCase latin1_strings].
  apply fold_latin1_idem.
Qed.

Section TicketFacts.

Variable JS : strings_js.

(** A document that passes the schema has non-blank subject,
    description and email and a subject of at most 200 characters. *)
Lemma supportRequest_errors_nil d :
  supportRequest_errors JS d = [] ->
  trim JS (ns_subject d) <> ""
  /\ (js_length JS (trim JS (ns_subject d)) <= 200)%nat
  /\ trim JS (ns_description d) <> ""
  /\ toLowerCase JS (trim JS (ns_email d)) <> "".
Proof.
  unfold supportRequest_errors, set_subject, set_description, set_email.
  destruct (String.eqb (trim JS (ns_subject d)) "") eqn:Hs; [discriminate|].
  destruct (Nat.ltb 200 (js_length JS (trim JS (ns_subject d)))) eqn:Hl;
    [discriminate|].
  destruct (String.eqb (trim JS (ns_description d)) "") eqn:Hd; [discriminate|].
  destruct (String.eqb (toLowerCase JS (trim JS (ns_email d))) "") eqn:He;
    [discriminate|].
  intros _. apply String.eqb_neq in Hs, Hd, He. apply Nat.ltb_ge in Hl.
  repeat split; assumption.
Qed.

Lemma created_doc_valid E w d :
  supportRequest_errors JS d = [] ->
  valid_doc JS (mkSupportRequest (next_id w) (set_subject JS d)
                  (set_description JS d) (set_phoneNumber JS d)
                  (set_email JS d) (ns_attachments d)
                  "pending" "medium" (ns_userId d) (now_ms E) (now_ms E)).
Proof.
  intros H. destruct (supportRequest_errors_nil d H) as [Hs [Hl [Hd He]]].
  constructor; cbn; try assumption.
  - now exists (trim JS (ns_email d)).
  - now left.
  - right. now left.
Qed.

(** The whole effect of [createSupportRequest] on the store. *)
Lemma createSupportRequest_effect
    (path_extname : string -> string) (full_is_over : bool)
    (E : env) (files : list filePart)
    (subject description phoneNumber email : option string)
    (req_user : option nat) (w : world) :
  let r := createSupportRequest JS path_extname full_is_over E files subject description
             phoneNumber email req_user w in
  users (snd r) = users w
  /\ ((status (fst r) = 201
       /\ exists doc,
           requests (snd r) = (requests w ++ [doc])%list
           /\ next_id (snd r) = S (next_id w)
           /\ sr_id doc = next_id w /\ valid_doc JS doc
           /\ sr_status doc = "pending" /\ sr_priority doc = "medium"
           /\ sr_userId doc = req_user
           /\ map a_filename (sr_attachments doc) = map f_originalname files
           /\ map a_size (sr_attachments doc) = map f_size files)
      \/ (status (fst r) <> 201
          /\ requests (snd r) = requests w /\ next_id (snd r) = next_id w)).
Proof.
  cbv zeta. unfold createSupportRequest.
  destruct (upload JS path_extname full_is_over E files) as [req_files|err] eqn:Hup.
  2: { destruct (String.eqb (e_name err) "MulterError"); cbn [fst snd status status_json];
         (split; [reflexivity | right; repeat split; discriminate]). }
  unfold upload in Hup.
  destruct (upload_array_Ok _ _ _ _ _ _ _ _ Hup) as [_ [_ Hmap]].
  unfold try_catch, bind, console_log, ret. cbn beta iota.
  destruct (present subject) as [s|];
    [|cbn; split; [reflexivity | right; repeat split; discriminate]].
  destruct (present description) as [d|];
    [|cbn; split; [reflexivity | right; repeat split; discriminate]].
  destruct (present email) as [e|];
    [|cbn; split; [reflexivity | right; repeat split; discriminate]].
  unfold SupportRequest_create.
  match goal with
  | |- context [supportRequest_errors JS ?doc] =>
      pose proof (created_doc_valid E
                    (write_console
                       (log_info "Files:" [JArr (map stored_json req_files)])
                       (write_console
                          (log_info "Received data:"
                             [JObj [("subject", field_json subject);
                                    ("description", field_json description);
                                    ("phoneNumber", field_json phoneNumber);
                                    ("email", field_json email)]]) w)) doc) as Hvalid;
      destruct (supportRequest_errors JS doc) as [|x errs]
  end.
  - unfold db_call. destruct (db_fault E 0).
    + cbn. split; [reflexivity | right; repeat split; discriminate].
    + cbn [fst snd status status_json users requests next_id write_console].
      split; [reflexivity|]. left. split; [reflexivity|].
      eexists. split; [reflexivity|]. split; [reflexivity|].
      split; [reflexivity|]. split; [exact (Hvalid eq_refl)|].
      cbn [sr_status sr_priority sr_userId sr_attachments ns_userId ns_attachments].
      repeat split.
      * rewrite map_map. cbn [a_filename]. now rewrite <- Hmap, map_map.
      * rewrite map_map. cbn [a_size]. now rewrite <- Hmap, map_map.
  - cbn. split; [reflexivity | right; repeat split; discriminate].
Qed.

End TicketFacts.

(** X11: a ticket is recorded exactly when the answer is 201: the
    ticket collection changes if and only if the status is 201.  Then
    one document is appended under the next id: it is valid for the
    schema, [pending] with priority [medium], carries one attachment per
    uploaded file in order under the file's original name, and the id
    counter moves on by one.  The [User] collection is never touched. *)
Theorem createSupportRequest_records
    (JS : strings_js)
    (path_extname : string -> string) (full_is_over : bool)
    (E : env) (files : list filePart)
    (subject description phoneNumber email : option string)
    (req_user : option nat) (w : world) :
  let r := createSupportRequest JS path_extname full_is_over E files subject description
             phoneNumber email req_user w in
  users (snd r) = users w
  /\ (status (fst r) = 201 <-> requests (snd r) <> requests w)
  /\ (status (fst r) = 201 ->
      exists doc,
        requests (snd r) = (requests w ++ [doc])%list
        /\ next_id (snd r) = S (next_id w)
        /\ sr_id doc = next_id w /\ valid_doc JS doc
        /\ sr_status doc = "pending" /\ sr_priority doc = "medium"
        /\ sr_userId doc = req_user
        /\ map a_filename (sr_attachments doc) = map f_originalname files
        /\ map a_size (sr_attachments doc) = map f_size files).
Proof.
  intros r. subst r.
  destruct (createSupportRequest_effect JS path_extname full_is_over E files subject description
              phoneNumber email req_user w)
    as [Hu [[H201 [doc Hdoc]] | [Hno [Hreq Hn]]]].
  - split; [exact Hu|]. split; [|intros _; now exists doc].
    split; [|intros _; exact H201].
    intros _ Heq. destruct Hdoc as [Happ _]. rewrite Happ in Heq.
    apply (f_equal (@length supportRequest)) in Heq.
    rewrite length_app in Heq. cbn in Heq. lia.
  - split; [exact Hu|]. split; [|intros H; contradiction].
    split; intros H; [contradiction | now elim H].
Qed.

Lemma find_fresh_id (l : list supportRequest) (n : nat) :
  Forall (fun d => (sr_id d < n)%nat) l -> find (has_id n) l = None.
Proof.
  induction 1 as [|d l Hd _ IH]; cbn [find]; [reflexivity|].
  unfold has_id at 1. destruct (Nat.eqb_spec (sr_id d) n); [lia | exact IH].
Qed.

Lemma getSupportRequest_found E id w d :
  db_fault E 0 = None -> db_fault E 1 = None ->
  find (has_id id) (requests w) = Some d ->
  getSupportRequest E id w
  = (mkResponse 200 (JObj [("success", JBool true);
                            ("data", populated_json w d)]), w).
Proof.
  intros H0 H1 Hf.
  unfold getSupportRequest, try_catch, bind, ret, SupportRequest_findById,
    populate_one, db_call.
  rewrite H0, Hf. destruct (refers_to_user d); now rewrite ?H1.
Qed.

(** X12: a ticket that was just recorded can be read back: on a store
    whose ticket ids are below the id counter, after a 201 from
    [createSupportRequest] a [getSupportRequest] for the id the counter
    stood at answers 200 with the stored document. *)
Theorem created_ticket_is_found
    (JS : strings_js)
    (path_extname : string -> string) (full_is_over : bool)
    (E E' : env) (files : list filePart)
    (subject description phoneNumber email : option string)
    (req_user : option nat) (w : world) :
  requests_fresh w ->
  db_fault E' 0 = None -> db_fault E' 1 = None ->
  let r := createSupportRequest JS path_extname full_is_over E files subject description
             phoneNumber email req_user w in
  status (fst r) = 201 ->
  exists doc,
    In doc (requests (snd r)) /\ sr_id doc = next_id w
    /\ getSupportRequest E' (next_id w) (snd r)
       = (mkResponse 200 (JObj [("success", JBool true);
                                 ("data", populated_json (snd r) doc)]),
          snd r).
Proof.
  intros Hfresh H0 H1 r H201.
  destruct (createSupportRequest_effect JS path_extname full_is_over E files subject description
              phoneNumber email req_user w) as [_ [[_ [doc Hdoc]] | [Hno _]]];
    [|contradiction].
  destruct Hdoc as [Hreq [_ [Hid _]]]. fold r in Hreq.
  exists doc. split; [|split; [exact Hid|]].
  - rewrite Hreq. apply in_or_app. right. now left.
  - apply getSupportRequest_found; try assumption.
    rewrite Hreq, (find_snoc _ _ _ (find_fresh_id _ _ Hfresh)).
    unfold has_id. rewrite Hid. now rewrite Nat.eqb_refl.
Qed.

Lemma created_ticket_is_found_witness :
  let r := createSupportRequest latin1_strings demo_extname true demo_env [photo]
             (Some " Help ") (Some "It broke") None (Some "Ann@X.com") None
             ticket_world in
  exists doc,
    In doc (requests (snd r)) /\ sr_id doc = next_id ticket_world
    /\ getSupportRequest demo_env (next_id ticket_world) (snd r)
       = (mkResponse 200 (JObj [("success", JBool true);
                                 ("data", populated_json (snd r) doc)]),
          snd r).
Proof.
  apply (created_ticket_is_found latin1_strings demo_extname true demo_env demo_env
           [photo] (Some " Help ") (Some "It broke") None (Some "Ann@X.com") None
           ticket_world).
  - repeat constructor.
  - reflexivity.
  - reflexivity.
  - reflexivity.
Defined.

(** X13: the handler only checks that subject, description and email
    are not empty; when subject or description is blank after the
    runtime's [trim], or the email blank after [trim] and [toLowerCase],
    or the trimmed subject longer than 200 in the runtime's [length],
    the schema refuses the document and the answer is a 500 whose
    [error] field is the validation message, with nothing recorded.
    [trim], [toLowerCase] and [length] are whatever the runtime
    provides. *)
Theorem blank_or_long_fields_are_500
    (JS : strings_js)
    (path_extname : string -> string) (full_is_over : bool)
    (E : env) (files : list filePart)
    (req_files : list stored)
    (subject description email : string) (phoneNumber : option string)
    (req_user : option nat) (w : world) :
  upload JS path_extname full_is_over E files = Ok req_files ->
  subject <> "" -> description <> "" -> email <> "" ->
  trim JS subject = "" \/ (200 < js_length JS (trim JS subject))%nat
  \/ trim JS description = "" \/ toLowerCase JS (trim JS email) = "" ->
  let r := createSupportRequest JS path_extname full_is_over E files (Some subject)
             (Some description) phoneNumber (Some email) req_user w in
  (exists detail,
      fst r = mkResponse 500
                (JObj [("success", JBool false);
                       ("message", JStr "Failed to submit support request");
                       ("error",
                        JStr ("SupportRequest validation failed: " ++ detail))]))
  /\ users (snd r) = users w
  /\ requests (snd r) = requests w
  /\ next_id (snd r) = next_id w.
Proof.
  intros Hup Hs Hd He Hbad. cbv zeta. unfold createSupportRequest. rewrite Hup.
  unfold try_catch, bind, console_log, ret. cbn beta iota.
  rewrite (present_nonempty _ Hs), (present_nonempty _ Hd), (present_nonempty _ He).
  unfold SupportRequest_create.
  match goal with
  | |- context [supportRequest_errors JS ?doc] =>
      pose proof (supportRequest_errors_nil JS doc) as Hnil;
      destruct (supportRequest_errors JS doc) as [|x errs]
  end.
  - exfalso. destruct (Hnil eq_refl) as [H1 [H2 [H3 H4]]].
    cbn [ns_subject ns_description ns_email] in *.
    destruct Hbad as [H|[H|[H|H]]]; try contradiction. lia.
  - cbn. split; [eexists; reflexivity|]. repeat split; reflexivity.
Qed.

Lemma blank_or_long_fields_are_500_witness :
  let r := createSupportRequest latin1_strings demo_extname true demo_env [photo]
             (Some "   ") (Some "It broke") None (Some "ann@x.com") None
             demo_world in
  (exists detail,
      fst r = mkResponse 500
                (JObj [("success", JBool false);
                       ("message", JStr "Failed to submit support request");
                       ("error",
                        JStr ("SupportRequest validation failed: " ++ detail))]))
  /\ users (snd r) = users demo_world
  /\ requests (snd r) = requests demo_world
  /\ next_id (snd r) = next_id demo_world.
Proof.
  apply (blank_or_long_fields_are_500 latin1_strings demo_extname true demo_env [photo]
           [mkStored photo "uploads/support/support-1700000000000-1.PNG"]
           "   " "It broke" "ann@x.com" None None demo_world);
    try discriminate; try reflexivity.
  left. reflexivity.
Defined.

(** ** Updating and deleting tickets *)

Lemma in_enum_In values v : in_enum values v = true -> In v values.
Proof.
  unfold in_enum. intros H. apply existsb_exists in H.
  destruct H as [x [Hin Heq]]. apply String.eqb_eq in Heq. now subst.
Qed.

Lemma update_errors_nil status priority :
  update_errors status priority = [] <->
  in_enum status_enum status = true /\ in_enum priority_enum priority = true.
Proof.
  unfold update_errors.
  destruct (in_enum status_enum status), (in_enum priority_enum priority);
    cbn; split; intros H; try discriminate H; try (destruct H; discriminate);
    auto.
Qed.

Lemma update_effect E id status priority w :
  let w' := snd (updateSupportRequestStatus E id status priority w) in
  users w' = users w /\ next_id w' = next_id w
  /\ (requests w' = requests w
      \/ (update_errors status priority = []
          /\ requests w'
             = map (fun d => if has_id id d
                             then set_status status priority (now_ms E) d else d)
                   (requests w))).
Proof.
  cbv zeta.
  unfold updateSupportRequestStatus, try_catch, bind, ret,
    SupportRequest_findByIdAndUpdate, support_caught, throw, db_call.
  destruct (update_errors status priority) as [|x errs].
  - destruct (db_fault E 0).
    + cbn. repeat split. now left.
    + destruct (find (has_id id) (requests w)); cbn; repeat split; right;
        split; reflexivity.
  - cbn. repeat split. now left.
Qed.

(** X14: an update never alters anything but [status], [priority] and
    [updatedAt]: the tickets keep their number and order, every ticket
    keeps its id, subject, description, phone number, email,
    attachments, user and creation time, tickets with another id are
    kept whole, and users and id counter are untouched. *)
Theorem update_keeps_the_rest
    (E : env) (id : nat) (status priority : string) (w : world) :
  let w' := snd (updateSupportRequestStatus E id status priority w) in
  map ticket_core (requests w') = map ticket_core (requests w)
  /\ (forall d, In d (requests w) -> sr_id d <> id -> In d (requests w'))
  /\ users w' = users w /\ next_id w' = next_id w.
Proof.
  cbv zeta.
  destruct (update_effect E id status priority w) as [Hu [Hn [Hsame | [_ Hmap]]]].
  - rewrite Hsame. repeat split; auto.
  - rewrite Hmap. repeat split; auto.
    + rewrite map_map. apply map_ext. intros d.
      now destruct (has_id id d).
    + intros d Hin Hid. apply in_map_iff. exists d. split; [|assumption].
      unfold has_id. destruct (Nat.eqb_spec (sr_id d) id); [contradiction|reflexivity].
Qed.

Lemma find_map_has_id id (f : supportRequest -> supportRequest) l d :
  (forall x, sr_id (f x) = sr_id x) ->
  find (has_id id) l = Some d ->
  find (has_id id) (map (fun x => if has_id id x then f x else x) l) = Some (f d).
Proof.
  intros Hf. induction l as [|x l IH]; cbn [find map]; [discriminate|].
  destruct (has_id id x) eqn:Hx.
  - intros H. inversion H; subst x.
    unfold has_id at 1. rewrite Hf. fold (has_id id d). now rewrite Hx.
  - rewrite Hx. exact IH.
Qed.

(** X15: an update with a status and a priority of the schema's enums,
    on a ticket that exists, answers 200 with the new version, and a
    later [getSupportRequest] for the same id reads the new status and
    priority back. *)
Theorem update_then_get
    (E E' : env) (id : nat) (status priority : string) (w : world)
    (d : supportRequest) :
  in_enum status_enum status = true ->
  in_enum priority_enum priority = true ->
  db_fault E 0 = None -> db_fault E' 0 = None -> db_fault E' 1 = None ->
  find (has_id id) (requests w) = Some d ->
  let r := updateSupportRequestStatus E id status priority w in
  let d' := set_status status priority (now_ms E) d in
  fst r = mkResponse 200
            (JObj [("success", JBool true);
                   ("message", JStr "Support request updated successfully");
                   ("data", supportRequest_json d')])
  /\ sr_status d' = status /\ sr_priority d' = priority
  /\ getSupportRequest E' id (snd r)
     = (mkResponse 200 (JObj [("success", JBool true);
                               ("data", populated_json (snd r) d')]),
        snd r).
Proof.
  intros Hs Hp H0 H0' H1' Hf. cbv zeta.
  assert (Hnil : update_errors status priority = [])
    by (apply update_errors_nil; now split).
  assert (Hr : updateSupportRequestStatus E id status priority w
               = (mkResponse 200
                    (JObj [("success", JBool true);
                           ("message", JStr "Support request updated successfully");
                           ("data", supportRequest_json
                                      (set_status status priority (now_ms E) d))]),
                  mkWorld (users w)
                    (map (fun x => if has_id id x
                                   then set_status status priority (now_ms E) x
                                   else x) (requests w))
                    (next_id w) (console w))).
  { unfold updateSupportRequestStatus, try_catch, bind, ret,
      SupportRequest_findByIdAndUpdate, db_call.
    now rewrite Hnil, H0, Hf. }
  rewrite Hr. cbn [fst snd]. repeat split.
  apply getSupportRequest_found; try assumption. cbn [requests].
  now apply (find_map_has_id id (set_status status priority (now_ms E))).
Qed.

Lemma update_then_get_witness :
  let r := updateSupportRequestStatus demo_env 2 "resolved" "high" ticket_world in
  let d' := set_status "resolved" "high" (now_ms demo_env) ticket in
  fst r = mkResponse 200
            (JObj [("success", JBool true);
                   ("message", JStr "Support request updated successfully");
                   ("data", supportRequest_json d')])
  /\ sr_status d' = "resolved" /\ sr_priority d' = "high"
  /\ getSupportRequest demo_env 2 (snd r)
     = (mkResponse 200 (JObj [("success", JBool true);
                               ("data", populated_json (snd r) d')]),
        snd r).
Proof.
  apply (update_then_get demo_env demo_env 2 "resolved" "high" ticket_world ticket);
    reflexivity.
Defined.

(** X16: a status or a priority outside the schema's enums is refused
    before the store is asked: the answer is 500 with the validation
    message in [error], also for an id no ticket has, and no ticket
    changes. *)
Theorem update_rejects_unknown_values
    (E : env) (id : nat) (new_status new_priority : string) (w : world) :
  in_enum status_enum new_status = false
  \/ in_enum priority_enum new_priority = false ->
  let r := updateSupportRequestStatus E id new_status new_priority w in
  status (fst r) = 500
  /\ (exists detail,
         member "error" (body (fst r)) = Some (JStr ("Validation failed: " ++ detail)))
  /\ requests (snd r) = requests w.
Proof.
  intros Hbad. cbv zeta.
  unfold updateSupportRequestStatus, try_catch, bind, ret,
    SupportRequest_findByIdAndUpdate, support_caught, throw.
  destruct (update_errors new_status new_priority) as [|x errs] eqn:Herr.
  - exfalso. apply update_errors_nil in Herr. destruct Herr as [Hs Hp].
    destruct Hbad; congruence.
  - cbn. split; [reflexivity|]. split; [|reflexivity]. eexists. reflexivity.
Qed.

Lemma update_rejects_unknown_values_witness :
  let r := updateSupportRequestStatus demo_env 99 "done" "high" ticket_world in
  status (fst r) = 500
  /\ (exists detail,
         member "error" (body (fst r)) = Some (JStr ("Validation failed: " ++ detail)))
  /\ requests (snd r) = requests ticket_world.
Proof.
  apply (update_rejects_unknown_values demo_env 99 "done" "high" ticket_world).
  left. reflexivity.
Defined.

Section Unlinking.

Variable unlink_fault : string -> option exn.

Lemma unlink_spec p q disk : In q (unlink p disk) <-> In q disk /\ q <> p.
Proof.
  unfold unlink. rewrite filter_In. split; intros [Hin H]; split; auto.
  - apply negb_true_iff in H. now apply String.eqb_neq in H.
  - apply negb_true_iff. now apply String.eqb_neq.
Qed.

(** The loop only ever removes files. *)
Lemma unlink_attachments_incl attachments :
  forall disk q,
    In q (snd (unlink_attachments unlink_fault attachments disk)) -> In q disk.
Proof.
  induction attachments as [|a rest IH]; intros disk q; cbn [unlink_attachments].
  - auto.
  - destruct (existsb (String.eqb (a_path a)) disk); [|apply IH].
    destruct (unlink_fault (a_path a)); [auto|].
    intros H. apply IH in H. now apply unlink_spec in H.
Qed.

(** It removes nothing but the attachments' own paths. *)
Lemma unlink_attachments_spares attachments :
  forall disk q,
    In q disk -> (forall a, In a attachments -> a_path a <> q) ->
    In q (snd (unlink_attachments unlink_fault attachments disk)).
Proof.
  induction attachments as [|a rest IH]; intros disk q Hq Hother;
    cbn [unlink_attachments].
  - exact Hq.
  - assert (Hrest : forall a', In a' rest -> a_path a' <> q)
      by (intros a' Ha'; apply Hother; now right).
    destruct (existsb (String.eqb (a_path a)) disk); [|now apply IH].
    destruct (unlink_fault (a_path a)); [exact Hq|].
    apply IH; [|assumption]. apply unlink_spec. split; [assumption|].
    intros Heq. apply (Hother a); [now left | now symmetry].
Qed.

(** When the loop runs to its end, none of the attachments is left. *)
Lemma unlink_attachments_done attachments :
  forall disk,
    fst (unlink_attachments unlink_fault attachments disk) = Ok tt ->
    forall a, In a attachments ->
              ~ In (a_path a) (snd (unlink_attachments unlink_fault attachments disk)).
Proof.
  induction attachments as [|a rest IH]; intros disk Hok a' Ha';
    cbn [unlink_attachments] in *; [contradiction|].
  destruct (existsb (String.eqb (a_path a)) disk) eqn:Hex.
  - destruct (unlink_fault (a_path a)); [discriminate|].
    destruct Ha' as [Heq|Hin]; [subst a'|now apply IH].
    intros Habs. apply unlink_attachments_incl in Habs.
    apply unlink_spec in Habs. now destruct Habs.
  - destruct Ha' as [Heq|Hin]; [subst a'|now apply IH].
    intros Habs. apply unlink_attachments_incl in Habs.
    assert (Htrue : existsb (String.eqb (a_path a)) disk = true).
    { apply existsb_exists. exists (a_path a). split; [assumption|].
      apply String.eqb_refl. }
    congruence.
Qed.

(** With a file system that refuses none of them, the loop runs to its
    end. *)
Lemma unlink_attachments_runs attachments :
  forall disk,
    (forall a, In a attachments -> unlink_fault (a_path a) = None) ->
    fst (unlink_attachments unlink_fault attachments disk) = Ok tt.
Proof.
  induction attachments as [|a rest IH]; intros disk Hnone;
    cbn [unlink_attachments]; [reflexivity|].
  assert (Hrest : forall a', In a' rest -> unlink_fault (a_path a') = None)
    by (intros a' Ha'; apply Hnone; now right).
  destruct (existsb (String.eqb (a_path a)) disk); [|now apply IH].
  rewrite (Hnone a (or_introl eq_refl)). now apply IH.
Qed.

End Unlinking.

Lemma find_after_delete id (l : list supportRequest) :
  find (has_id id) (filter (fun d => negb (has_id id d)) l) = None.
Proof.
  induction l as [|x l IH]; cbn [filter find]; [reflexivity|].
  destruct (has_id id x) eqn:Hx; cbn [negb]; [exact IH|].
  cbn [find]. now rewrite Hx.
Qed.

Lemma find_has_id id (l : list supportRequest) d :
  find (has_id id) l = Some d -> In d l /\ sr_id d = id.
Proof.
  intros H. apply find_some in H. destruct H as [Hin Hid].
  split; [assumption|]. now apply Nat.eqb_eq in Hid.
Qed.

(** X17: deleting a ticket that exists, with store and file system
    willing, answers 200; the ticket is gone (reading it answers 404)
    and none of its attachment files is left on the disk. *)
Theorem delete_removes_ticket_and_files
    (E E' : env) (unlink_fault : string -> option exn) (id : nat)
    (w : world) (disk : list string) (d : supportRequest) :
  db_fault E 0 = None -> db_fault E 1 = None -> db_fault E' 0 = None ->
  find (has_id id) (requests w) = Some d ->
  (forall a, In a (sr_attachments d) -> unlink_fault (a_path a) = None) ->
  let res := deleteSupportRequest E unlink_fault id w disk in
  fst (fst res)
  = mkResponse 200 (JObj [("success", JBool true);
                           ("message", JStr "Support request deleted successfully")])
  /\ find (has_id id) (requests (snd (fst res))) = None
  /\ fst (getSupportRequest E' id (snd (fst res)))
     = mkResponse 404 (JObj [("success", JBool false);
                             ("message", JStr "Support request not found")])
  /\ forall a, In a (sr_attachments d) -> ~ In (a_path a) (snd res).
Proof.
  intros H0 H1 H0' Hf Hnone. cbv zeta.
  destruct (find_has_id _ _ _ Hf) as [_ Hid].
  pose proof (unlink_attachments_runs unlink_fault (sr_attachments d) disk Hnone)
    as Hruns.
  pose proof (unlink_attachments_done unlink_fault (sr_attachments d) disk Hruns)
    as Hdone.
  unfold deleteSupportRequest, SupportRequest_findById, SupportRequest_deleteOne,
    db_call.
  rewrite H0, Hf.
  destruct (unlink_attachments unlink_fault (sr_attachments d) disk)
    as [[[]|err] disk'] eqn:Hun; cbn [fst snd] in *; [|discriminate].
  rewrite H1, Hid. cbn [fst snd requests].
  split; [reflexivity|]. split; [apply find_after_delete|]. split; [|exact Hdone].
  unfold getSupportRequest, try_catch, bind, ret, SupportRequest_findById, db_call.
  rewrite H0'. cbn [requests]. now rewrite find_after_delete.
Qed.

Lemma delete_removes_ticket_and_files_witness :
  let res := deleteSupportRequest demo_env (fun _ => None) 2 ticket_world
               ["uploads/support/support-1.PNG"; "uploads/support/other.pdf"] in
  fst (fst res)
  = mkResponse 200 (JObj [("success", JBool true);
                           ("message", JStr "Support request deleted successfully")])
  /\ find (has_id 2) (requests (snd (fst res))) = None
  /\ fst (getSupportRequest demo_env 2 (snd (fst res)))
     = mkResponse 404 (JObj [("success", JBool false);
                             ("message", JStr "Support request not found")])
  /\ forall a, In a (sr_attachments ticket) -> ~ In (a_path a) (snd res).
Proof.
  apply (delete_removes_ticket_and_files demo_env demo_env (fun _ => None) 2
           ticket_world
           ["uploads/support/support-1.PNG"; "uploads/support/other.pdf"] ticket);
    reflexivity.
Defined.

(** X18: whatever happens, a delete keeps every ticket with another id,
    creates no file, keeps every file that is not an attachment of the
    ticket it was asked to delete, and leaves users and id counter
    alone. *)
Theorem delete_spares_the_rest
    (E : env) (unlink_fault : string -> option exn) (id : nat)
    (w : world) (disk : list string) :
  let res := deleteSupportRequest E unlink_fault id w disk in
  (forall d, In d (requests w) -> sr_id d <> id -> In d (requests (snd (fst res))))
  /\ (forall p, In p (snd res) -> In p disk)
  /\ (forall p, In p disk ->
                (forall d a, find (has_id id) (requests w) = Some d ->
                             In a (sr_attachments d) -> a_path a <> p) ->
                In p (snd res))
  /\ users (snd (fst res)) = users w
  /\ next_id (snd (fst res)) = next_id w.
Proof.
  cbv zeta.
  unfold deleteSupportRequest, SupportRequest_findById, SupportRequest_deleteOne,
    support_caught, db_call.
  destruct (db_fault E 0); [cbn; repeat split; auto|].
  destruct (find (has_id id) (requests w)) as [d|] eqn:Hf;
    [|cbn; repeat split; auto].
  destruct (find_has_id _ _ _ Hf) as [_ Hid].
  pose proof (unlink_attachments_incl unlink_fault (sr_attachments d) disk) as Hincl.
  pose proof (unlink_attachments_spares unlink_fault (sr_attachments d) disk) as Hsp.
  destruct (unlink_attachments unlink_fault (sr_attachments d) disk)
    as [[[]|err] disk'] eqn:Hun; cbn [fst snd] in *.
  - destruct (db_fault E 1); cbn [fst snd users requests next_id write_console];
      repeat split; auto.
    + intros p Hp Hother. apply Hsp; [assumption|]. intros a. now apply Hother.
    + intros d0 Hin Hne. apply filter_In. split; [assumption|].
      apply negb_true_iff. unfold has_id. rewrite Hid.
      destruct (Nat.eqb_spec (sr_id d0) id); [contradiction | reflexivity].
    + intros p Hp Hother. apply Hsp; [assumption|]. intros a. now apply Hother.
  - repeat split; auto.
    intros p Hp Hother. apply Hsp; [assumption|]. intros a. now apply Hother.
Qed.

(** X19: the attachment files are unlinked before the document is
    deleted, so when the store then refuses the delete the answer is 500
    and the ticket is still stored, but its files are gone. *)
Theorem delete_refused_after_unlink
    (E : env) (unlink_fault : string -> option exn) (id : nat)
    (w : world) (disk : list string) (d : supportRequest) (e : exn) :
  db_fault E 0 = None -> db_fault E 1 = Some e ->
  find (has_id id) (requests w) = Some d ->
  (forall a, In a (sr_attachments d) -> unlink_fault (a_path a) = None) ->
  let res := deleteSupportRequest E unlink_fault id w disk in
  status (fst (fst res)) = 500
  /\ member "error" (body (fst (fst res))) = Some (JStr (e_message e))
  /\ requests (snd (fst res)) = requests w
  /\ forall a, In a (sr_attachments d) -> ~ In (a_path a) (snd res).
Proof.
  intros H0 H1 Hf Hnone. cbv zeta.
  pose proof (unlink_attachments_runs unlink_fault (sr_attachments d) disk Hnone)
    as Hruns.
  pose proof (unlink_attachments_done unlink_fault (sr_attachments d) disk Hruns)
    as Hdone.
  unfold deleteSupportRequest, SupportRequest_findById, SupportRequest_deleteOne,
    support_caught, db_call.
  rewrite H0, Hf.
  destruct (unlink_attachments unlink_fault (sr_attachments d) disk)
    as [[[]|err] disk'] eqn:Hun; cbn [fst snd] in *; [|discriminate].
  rewrite H1. cbn. repeat split. exact Hdone.
Qed.

Lemma delete_refused_after_unlink_witness :
  let res := deleteSupportRequest
               (mkEnv 1700000000000 "s1"
                      (fun n => match n with O => None | S _ => Some refused end)
                      (fun _ => Throw refused) (fun _ => "x"))
               (fun _ => None) 2 ticket_world
               ["uploads/support/support-1.PNG"] in
  status (fst (fst res)) = 500
  /\ member "error" (body (fst (fst res))) = Some (JStr (e_message refused))
  /\ requests (snd (fst res)) = requests ticket_world
  /\ forall a, In a (sr_attachments ticket) -> ~ In (a_path a) (snd res).
Proof.
  apply (delete_refused_after_unlink
           (mkEnv 1700000000000 "s1"
                  (fun n => match n with O => None | S _ => Some refused end)
                  (fun _ => Throw refused) (fun _ => "x"))
           (fun _ => None) 2 ticket_world ["uploads/support/support-1.PNG"]
           ticket refused); reflexivity.
Defined.

(** ** Tickets stay valid *)

Lemma handle_requests JWT_SECRET bcrypt_hash bcrypt_compare E r w :
  requests (snd (handle JWT_SECRET bcrypt_hash bcrypt_compare E r w)) = requests w
  /\ (next_id w <= next_id (snd (handle JWT_SECRET bcrypt_hash bcrypt_compare E r w)))%nat.
Proof.
  destruct r; cbn [handle]; run_handler; cbn; split; reflexivity || lia.
Qed.

Lemma delete_effect E unlink_fault id w disk :
  let w' := snd (fst (deleteSupportRequest E unlink_fault id w disk)) in
  next_id w' = next_id w
  /\ (requests w' = requests w
      \/ requests w' = filter (fun d => negb (has_id id d)) (requests w)).
Proof.
  cbv zeta.
  unfold deleteSupportRequest, SupportRequest_findById, SupportRequest_deleteOne,
    support_caught, db_call.
  destruct (db_fault E 0); [cbn; split; auto|].
  destruct (find (has_id id) (requests w)) as [d|] eqn:Hf; [|cbn; split; auto].
  destruct (find_has_id _ _ _ Hf) as [_ Hid].
  destruct (unlink_attachments unlink_fault (sr_attachments d) disk)
    as [[[]|err] disk']; [|cbn; split; auto].
  destruct (db_fault E 1); cbn; split; auto.
  right. now rewrite Hid.
Qed.

Lemma set_status_valid JS new_status new_priority now d :
  in_enum status_enum new_status = true ->
  in_enum priority_enum new_priority = true ->
  valid_doc JS d -> valid_doc JS (set_status new_status new_priority now d).
Proof.
  intros Hs Hp [H1 H2 H3 H4 H5 _ _].
  constructor; cbn [set_status sr_subject sr_description sr_email sr_status sr_priority];
    try assumption; now apply in_enum_In.
Qed.

(** X20: the two properties of the ticket collection (every document is
    valid for the schema; every id is below the id counter) are kept by
    [createSupportRequest], [updateSupportRequestStatus],
    [deleteSupportRequest] and by every auth handler. *)
Theorem tickets_stay_valid
    (JS : strings_js)
    (JWT_SECRET : string) (bcrypt_hash : string -> string -> string)
    (bcrypt_compare : string -> string -> bool)
    (path_extname : string -> string) (full_is_over : bool)
    (unlink_fault : string -> option exn)
    (E : env) (w : world) :
  Forall (valid_doc JS) (requests w) -> requests_fresh w ->
  (forall files subject description phoneNumber email req_user,
      let w' := snd (createSupportRequest JS path_extname full_is_over E files subject
                       description phoneNumber email req_user w) in
      Forall (valid_doc JS) (requests w') /\ requests_fresh w')
  /\ (forall id new_status new_priority,
         let w' := snd (updateSupportRequestStatus E id new_status new_priority w) in
         Forall (valid_doc JS) (requests w') /\ requests_fresh w')
  /\ (forall id disk,
         let w' := snd (fst (deleteSupportRequest E unlink_fault id w disk)) in
         Forall (valid_doc JS) (requests w') /\ requests_fresh w')
  /\ (forall r,
         let w' := snd (handle JWT_SECRET bcrypt_hash bcrypt_compare E r w) in
         Forall (valid_doc JS) (requests w') /\ requests_fresh w').
Proof.
  intros Hvalid Hfresh. unfold requests_fresh in *. repeat split.
  - destruct (createSupportRequest_effect JS path_extname full_is_over E files subject description
                phoneNumber email req_user w)
      as [_ [[_ [doc [Hreq [_ [_ [Hdoc _]]]]]] | [_ [Hreq _]]]];
      rewrite Hreq; [|assumption].
    apply Forall_app. split; [assumption|].
    constructor; [exact Hdoc | constructor].
  - destruct (createSupportRequest_effect JS path_extname full_is_over E files subject description
                phoneNumber email req_user w)
      as [_ [[_ [doc [Hreq [Hn [Hid _]]]]] | [_ [Hreq Hn]]]];
      rewrite Hreq, Hn; [|assumption].
    apply Forall_app. split.
    + eapply Forall_impl; [|exact Hfresh]. cbn. intros; lia.
    + constructor; [lia | constructor].
  - destruct (update_effect E id new_status new_priority w)
      as [_ [_ [Hsame | [Herr Hmap]]]]; [now rewrite Hsame|].
    rewrite Hmap. apply update_errors_nil in Herr. destruct Herr as [Hs Hp].
    apply Forall_forall. intros d Hd. apply in_map_iff in Hd.
    destruct Hd as [d0 [Heq Hin]]. rewrite Forall_forall in Hvalid.
    destruct (has_id id d0); subst d; [|now apply Hvalid].
    apply set_status_valid; auto.
  - destruct (update_effect E id new_status new_priority w)
      as [_ [Hn [Hsame | [_ Hmap]]]]; rewrite Hn; [now rewrite Hsame|].
    rewrite Hmap. apply Forall_forall. intros d Hd. apply in_map_iff in Hd.
    destruct Hd as [d0 [Heq Hin]]. rewrite Forall_forall in Hfresh.
    specialize (Hfresh d0 Hin). destruct (has_id id d0); subst d; exact Hfresh.
  - destruct (delete_effect E unlink_fault id w disk) as [_ [Hsame | Hfil]];
      [now rewrite Hsame|].
    rewrite Hfil. apply Forall_forall. intros d Hd. apply filter_In in Hd.
    rewrite Forall_forall in Hvalid. now apply Hvalid.
  - destruct (delete_effect E unlink_fault id w disk) as [Hn [Hsame | Hfil]];
      rewrite Hn; [now rewrite Hsame|].
    rewrite Hfil. apply Forall_forall. intros d Hd. apply filter_In in Hd.
    rewrite Forall_forall in Hfresh. now apply Hfresh.
  - destruct (handle_requests JWT_SECRET bcrypt_hash bcrypt_compare E r w)
      as [Hreq _]. now rewrite Hreq.
  - destruct (handle_requests JWT_SECRET bcrypt_hash bcrypt_compare E r w)
      as [Hreq Hn]. rewrite Hreq.
    eapply Forall_impl; [|exact Hfresh]. cbn. intros; lia.
Qed.

Lemma tickets_stay_valid_witness :
  let w' := snd (updateSupportRequestStatus demo_env 2 "closed" "low" ticket_world) in
  Forall (valid_doc latin1_strings) (requests w') /\ requests_fresh w'.
Proof.
  assert (Hvalid : Forall (valid_doc latin1_strings) (requests ticket_world)).
  { constructor; [|constructor].
    constructor; cbn; try discriminate; try lia; try tauto.
    now exists "ann@x.com". }
  assert (Hfresh : requests_fresh ticket_world) by (repeat constructor).
  destruct (tickets_stay_valid latin1_strings "k" demo_hash demo_compare demo_extname true
              (fun _ => None) demo_env ticket_world Hvalid Hfresh)
    as [_ [H _]].
  apply (H 2%nat "closed" "low").
Defined.

(** ** Listing tickets page by page *)

Lemma insert_newest_perm d l : Permutation (insert_newest d l) (d :: l).
Proof.
  induction l as [|x l IH]; cbn [insert_newest]; [reflexivity|].
  destruct (sr_createdAt x <=? sr_createdAt d); [reflexivity|].
  rewrite IH. apply perm_swap.
Qed.

Lemma sort_newest_perm l : Permutation (sort_newest l) l.
Proof.
  induction l as [|d l IH]; cbn [sort_newest fold_right]; [reflexivity|].
  fold (sort_newest l). rewrite insert_newest_perm. now constructor.
Qed.

Lemma insert_newest_sorted d l :
  newest_first l -> newest_first (insert_newest d l).
Proof.
  induction l as [|x l IH]; cbn [insert_newest newest_first].
  - intros _. split; [constructor | exact I].
  - intros [Hx Hl]. destruct (sr_createdAt x <=? sr_createdAt d) eqn:Hle.
    + apply Z.leb_le in Hle. cbn [newest_first]. repeat split; try assumption.
      constructor; [assumption|].
      eapply Forall_impl; [|exact Hx]. cbn. intros; lia.
    + apply Z.leb_gt in Hle. cbn [newest_first]. split; [|now apply IH].
      assert (Hall : Forall (fun y => sr_createdAt y <= sr_createdAt x) (d :: l))
        by (constructor; [lia | assumption]).
      rewrite Forall_forall in *. intros y Hy. apply Hall.
      eapply Permutation_in; [apply insert_newest_perm | exact Hy].
Qed.

Lemma sort_newest_sorted l : newest_first (sort_newest l).
Proof.
  induction l as [|d l IH]; cbn [sort_newest fold_right]; [exact I|].
  now apply insert_newest_sorted.
Qed.

Lemma In_firstn {A} n (l : list A) x : In x (firstn n l) -> In x l.
Proof.
  intros H. rewrite <- (firstn_skipn n l). apply in_or_app. now left.
Qed.

Lemma In_skipn {A} n (l : list A) x : In x (skipn n l) -> In x l.
Proof.
  intros H. rewrite <- (firstn_skipn n l). apply in_or_app. now right.
Qed.

Lemma newest_first_skipn n : forall l, newest_first l -> newest_first (skipn n l).
Proof.
  induction n as [|n IH]; intros [|x l] H; cbn [skipn]; try assumption.
  apply IH. now destruct H.
Qed.

Lemma newest_first_firstn n : forall l, newest_first l -> newest_first (firstn n l).
Proof.
  induction n as [|n IH]; intros [|x l] H; cbn [firstn newest_first]; try exact I.
  destruct H as [Hx Hl]. split; [|now apply IH].
  rewrite Forall_forall in *. intros y Hy. apply Hx. now apply In_firstn in Hy.
Qed.


Section ListingFacts.

Variable unread_query :
  option string -> option string -> option string -> world -> outcome response.
Variable skip_error : Z -> exn.

(** The answer for a page and a limit that read as integers, the limit
    not negative and the skip not negative, with the store up. *)
Lemma getAll_up E status page limit w p l :
  db_fault E 0 = None -> db_fault E 1 = None -> db_fault E 2 = None ->
  query_int 1 page = Some p -> query_int 10 limit = Some l ->
  0 <= l -> 0 <= (p - 1) * l <= 2 ^ 53 ->
  getAllSupportRequests unread_query skip_error E status page limit w
  = (mkResponse 200
       (JObj [("success", JBool true);
              ("data", JArr (map (populated_json w) (page_docs status p l w)));
              ("totalPages",
               if l =? 0 then JNull
               else JNum (ceil_div
                            (Z.of_nat (length (filter (matches status) (requests w))))
                            l));
              ("currentPage",
               match page with
               | Some raw => JStr raw
               | None => JNum 1
               end);
              ("total",
               JNum (Z.of_nat (length (filter (matches status) (requests w)))))]),
     w).
Proof.
  intros H0 H1 H2 Hp Hl Hl0 Hskip.
  unfold getAllSupportRequests, try_catch. rewrite Hp, Hl. cbv zeta.
  assert (Hneg : (l <? 0) = false) by (apply Z.ltb_ge; lia).
  assert (Hbig : (2 ^ 53 <? Z.abs ((p - 1) * l)) = false)
    by (apply Z.ltb_ge; rewrite Z.abs_eq; lia).
  assert (Hs : ((p - 1) * l <? 0) = false) by (apply Z.ltb_ge; lia).
  rewrite Hneg, Hbig. cbn [orb].
  unfold bind, ret, populate, db_call, status_json.
  rewrite H0, H2, Hs. destruct (existsb refers_to_user _); now rewrite ?H1.
Qed.

(** The answer for a skip that is negative, as for [?page=0]. *)
Lemma getAll_negative_skip E status page limit w p l :
  db_fault E 0 = None ->
  query_int 1 page = Some p -> query_int 10 limit = Some l ->
  0 <= l -> - 2 ^ 53 <= (p - 1) * l < 0 ->
  getAllSupportRequests unread_query skip_error E status page limit w
  = (mkResponse 500
       (JObj [("success", JBool false);
              ("message", JStr "Failed to fetch support requests");
              ("error", JStr (e_message (skip_error ((p - 1) * l))))]),
     write_console
       (log_error "Error fetching support requests:" (skip_error ((p - 1) * l))) w).
Proof.
  intros H0 Hp Hl Hl0 Hskip.
  unfold getAllSupportRequests, try_catch. rewrite Hp, Hl. cbv zeta.
  assert (Hneg : (l <? 0) = false) by (apply Z.ltb_ge; lia).
  assert (Hbig : (2 ^ 53 <? Z.abs ((p - 1) * l)) = false)
    by (apply Z.ltb_ge; rewrite Z.abs_neq; lia).
  assert (Hs : ((p - 1) * l <? 0) = true) by (apply Z.ltb_lt; lia).
  rewrite Hneg, Hbig. cbn [orb].
  unfold bind, db_call. now rewrite H0, Hs.
Qed.

Lemma page_docs_limited status p l w :
  1 <= l ->
  page_docs status p l w
  = firstn (Z.to_nat l)
      (skipn (Z.to_nat ((p - 1) * l))
         (sort_newest (filter (matches status) (requests w)))).
Proof.
  intros Hl. unfold page_docs.
  assert (H : (l =? 0) = false) by (apply Z.eqb_neq; lia). now rewrite H.
Qed.

Lemma page_docs_stored status p l w :
  Forall (fun d => In d (requests w) /\ matches status d = true)
         (page_docs status p l w).
Proof.
  apply Forall_forall. intros d Hd. unfold page_docs in Hd.
  assert (Hin : In d (sort_newest (filter (matches status) (requests w)))).
  { destruct (l =? 0); [|apply In_firstn in Hd]; now apply In_skipn in Hd. }
  apply (Permutation_in _ (sort_newest_perm _)) in Hin.
  now apply filter_In in Hin.
Qed.

Lemma page_docs_newest_first status p l w :
  newest_first (page_docs status p l w).
Proof.
  unfold page_docs. destruct (l =? 0).
  - apply newest_first_skipn, sort_newest_sorted.
  - apply newest_first_firstn, newest_first_skipn, sort_newest_sorted.
Qed.

Lemma ceil_div_bounds count limit :
  0 <= count -> 1 <= limit ->
  (ceil_div count limit - 1) * limit < count
  /\ count <= ceil_div count limit * limit.
Proof.
  intros Hc Hl. unfold ceil_div.
  pose proof (Z.div_mod (- count) limit ltac:(lia)) as Hdm.
  pose proof (Z.mod_pos_bound (- count) limit ltac:(lia)) as Hmod.
  nia.
Qed.

End ListingFacts.

(** X21: with the store up, a page and a limit that read as integers,
    the limit not negative: when the skip [(page - 1) * limit] is not
    negative, [getAllSupportRequests] answers 200 with one page of
    stored tickets of the requested status, newest first, at most
    [limit] of them when the limit is at least one and all of them when
    it is zero ([?limit=0] or [?limit=]), and the store is not changed;
    when the skip is negative (as for [?page=0]) the answer is 500 with
    the driver's message in [error]. *)
Theorem getAll_page
    (unread_query :
       option string -> option string -> option string -> world -> outcome response)
    (skip_error : Z -> exn)
    (E : env) (status_filter page limit : option string) (w : world) (p l : Z) :
  db_fault E 0 = None -> db_fault E 1 = None -> db_fault E 2 = None ->
  query_int 1 page = Some p -> query_int 10 limit = Some l ->
  0 <= l -> Z.abs ((p - 1) * l) <= 2 ^ 53 ->
  let r := getAllSupportRequests unread_query skip_error E status_filter page
             limit w in
  let docs := page_docs status_filter p l w in
  (0 <= (p - 1) * l ->
   snd r = w
   /\ status (fst r) = 200
   /\ member "data" (body (fst r)) = Some (JArr (map (populated_json w) docs))
   /\ (1 <= l -> Z.of_nat (length docs) <= l)
   /\ (l = 0 -> docs = sort_newest (filter (matches status_filter) (requests w)))
   /\ Forall (fun d => In d (requests w) /\ matches status_filter d = true) docs
   /\ newest_first docs)
  /\ ((p - 1) * l < 0 ->
      r = (mkResponse 500
             (JObj [("success", JBool false);
                    ("message", JStr "Failed to fetch support requests");
                    ("error", JStr (e_message (skip_error ((p - 1) * l))))]),
           write_console
             (log_error "Error fetching support requests:"
                        (skip_error ((p - 1) * l))) w)).
Proof.
  intros H0 H1 H2 Hp Hl Hl0 Hskip. cbv zeta. split.
  - intros Hpos.
    rewrite (getAll_up unread_query skip_error _ _ _ _ _ _ _ H0 H1 H2 Hp Hl Hl0)
      by (rewrite Z.abs_eq in Hskip; lia).
    cbn [fst snd status body member String.eqb Ascii.eqb Bool.eqb].
    split; [reflexivity|]. split; [reflexivity|]. split; [reflexivity|].
    split; [|split; [|split]].
    + intros Hl1. rewrite page_docs_limited by assumption.
      pose proof (firstn_le_length (Z.to_nat l)
                    (skipn (Z.to_nat ((p - 1) * l))
                       (sort_newest (filter (matches status_filter) (requests w)))))
        as Hlen.
      lia.
    + intros Hz. subst l. unfold page_docs. cbn [Z.eqb].
      now rewrite Z.mul_0_r.
    + apply page_docs_stored.
    + apply page_docs_newest_first.
  - intros Hneg.
    apply (getAll_negative_skip unread_query skip_error); try assumption.
    rewrite Z.abs_neq in Hskip; lia.
Qed.

Lemma getAll_page_witness :
  (member "data"
     (body (fst (getAllSupportRequests demo_unread demo_skip_error demo_env None
                   (Some "2") (Some "2") busy_world)))
   = Some (JArr (map (populated_json busy_world) [ticket]))
   /\ member "data"
        (body (fst (getAllSupportRequests demo_unread demo_skip_error demo_env
                      (Some "pending") None (Some "0") busy_world)))
      = Some (JArr (map (populated_json busy_world) [ticket_latest; ticket])))
  /\ status (fst (getAllSupportRequests demo_unread demo_skip_error demo_env None
                    (Some "0") None busy_world)) = 500.
Proof.
  assert (H2 : 0 <= 2) by lia.
  assert (H0 : 0 <= 0) by lia.
  assert (H10 : 0 <= 10) by lia.
  assert (Hs2 : Z.abs ((2 - 1) * 2) <= 2 ^ 53) by (vm_compute; discriminate).
  assert (Hs0 : Z.abs ((1 - 1) * 0) <= 2 ^ 53) by (vm_compute; discriminate).
  assert (Hs10 : Z.abs ((0 - 1) * 10) <= 2 ^ 53) by (vm_compute; discriminate).
  split; [split|].
  - destruct (getAll_page demo_unread demo_skip_error demo_env None
                (Some "2") (Some "2") busy_world 2 2
                eq_refl eq_refl eq_refl eq_refl eq_refl H2 Hs2) as [H _].
    destruct H as [_ [_ [Hdata _]]]; [lia|]. exact Hdata.
  - destruct (getAll_page demo_unread demo_skip_error demo_env (Some "pending")
                None (Some "0") busy_world 1 0
                eq_refl eq_refl eq_refl eq_refl eq_refl H0 Hs0) as [H _].
    destruct H as [_ [_ [Hdata _]]]; [lia|]. exact Hdata.
  - destruct (getAll_page demo_unread demo_skip_error demo_env None
                (Some "0") None busy_world 0 10
                eq_refl eq_refl eq_refl eq_refl eq_refl H10 Hs10) as [_ H].
    rewrite H by lia. reflexivity.
Defined.



(** X23: with the store up, a page and a limit that read as integers
    and a skip that is not negative: [total] is the number of stored
    tickets of the requested status; for a limit of at least one
    [totalPages] is the least number of pages of [limit] tickets that
    hold [total] tickets, and a page after the last one is empty; for a
    limit of zero the division by zero leaves [totalPages] null. *)
Theorem getAll_totalPages
    (unread_query :
       option string -> option string -> option string -> world -> outcome response)
    (skip_error : Z -> exn)
    (E : env) (status_filter page limit : option string) (w : world) (p l : Z) :
  db_fault E 0 = None -> db_fault E 1 = None -> db_fault E 2 = None ->
  query_int 1 page = Some p -> query_int 10 limit = Some l ->
  0 <= l -> 0 <= (p - 1) * l <= 2 ^ 53 ->
  let r := fst (getAllSupportRequests unread_query skip_error E status_filter
                  page limit w) in
  let total := Z.of_nat (length (filter (matches status_filter) (requests w))) in
  let pages := ceil_div total l in
  member "total" (body r) = Some (JNum total)
  /\ (l = 0 -> member "totalPages" (body r) = Some JNull)
  /\ (1 <= l ->
      member "totalPages" (body r) = Some (JNum pages)
      /\ (pages - 1) * l < total
      /\ total <= pages * l
      /\ (pages < p -> member "data" (body r) = Some (JArr []))).
Proof.
  intros H0 H1 H2 Hp Hl Hl0 Hskip. cbv zeta.
  rewrite (getAll_up unread_query skip_error _ _ _ _ _ _ _ H0 H1 H2 Hp Hl Hl0 Hskip).
  cbn [fst body member String.eqb Ascii.eqb Bool.eqb].
  split; [reflexivity|]. split.
  - intros Hz. now subst l.
  - intros Hl1.
    assert (Hz : (l =? 0) = false) by (apply Z.eqb_neq; lia).
    rewrite Hz.
    destruct (ceil_div_bounds
                (Z.of_nat (length (filter (matches status_filter) (requests w))))
                l ltac:(lia) Hl1) as [Hlow Hhigh].
    repeat split; try assumption.
    intros Hlate. rewrite page_docs_limited by assumption.
    rewrite skipn_all2; [now rewrite firstn_nil|].
    rewrite (Permutation_length (sort_newest_perm _)). nia.
Qed.

Lemma getAll_totalPages_witness :
  (member "totalPages"
     (body (fst (getAllSupportRequests demo_unread demo_skip_error demo_env None
                   (Some "3") (Some "2") busy_world)))
   = Some (JNum 2)
   /\ member "data"
        (body (fst (getAllSupportRequests demo_unread demo_skip_error demo_env None
                      (Some "3") (Some "2") busy_world)))
      = Some (JArr []))
  /\ member "totalPages"
       (body (fst (getAllSupportRequests demo_unread demo_skip_error demo_env None
                     None (Some "") busy_world)))
     = Some JNull.
Proof.
  assert (H2 : 0 <= 2) by lia.
  assert (H0 : 0 <= 0) by lia.
  assert (Hs2 : 0 <= (3 - 1) * 2 <= 2 ^ 53)
    by (split; vm_compute; discriminate).
  assert (Hs0 : 0 <= (1 - 1) * 0 <= 2 ^ 53)
    by (split; vm_compute; discriminate).
  split.
  - destruct (getAll_totalPages demo_unread demo_skip_error demo_env None
                (Some "3") (Some "2") busy_world 3 2
                eq_refl eq_refl eq_refl eq_refl eq_refl H2 Hs2) as [_ [_ H]].
    destruct H as [Hpages [_ [_ Hlate]]]; [lia|].
    split; [exact Hpages|]. apply Hlate. reflexivity.
  - destruct (getAll_totalPages demo_unread demo_skip_error demo_env None
                None (Some "") busy_world 1 0
                eq_refl eq_refl eq_refl eq_refl eq_refl H0 Hs0) as [_ [H _]].
    now apply H.
Defined.

(** ** More on uploads and on reading *)

Lemma allowedTypes_standard_mimetypes :
  allowedTypes_test "text/plain" = false
  /\ allowedTypes_test "application/msword" = false.
Proof. split; reflexivity. Qed.

(** X24: the pattern is also applied to the declared mimetype, and the
    usual mimetypes of [.txt] and [.doc] files contain none of its
    alternatives: an upload with a file declared [text/plain] or
    [application/msword] is answered 400 and records nothing, whatever
    the file is called. *)
Theorem plain_text_and_msword_are_refused
    (JS : strings_js)
    (path_extname : string -> string) (full_is_over : bool)
    (E : env) (files : list filePart)
    (file : filePart)
    (subject description phoneNumber email : option string)
    (req_user : option nat) (w : world) :
  In file files ->
  f_mimetype file = "text/plain" \/ f_mimetype file = "application/msword" ->
  let r := createSupportRequest JS path_extname full_is_over E files subject
             description phoneNumber email req_user w in
  r = (mkResponse 400
         (JObj [("success", JBool false);
                ("message", JStr "Only images, PDFs, and documents are allowed!")]),
       w)
  \/ r = (mkResponse 400
            (JObj [("success", JBool false);
                   ("message", JStr "File upload error: Unexpected field")]),
          w)
  \/ r = (mkResponse 400
            (JObj [("success", JBool false);
                   ("message", JStr "File upload error: File too large")]),
          w).
Proof.
  intros Hin Hmime. cbv zeta.
  assert (Hbad : acceptable JS path_extname file = false).
  { unfold acceptable.
    destruct allowedTypes_standard_mimetypes as [Ht Hw].
    destruct Hmime as [H|H]; rewrite H, ?Ht, ?Hw; apply andb_false_r. }
  unfold createSupportRequest.
  destruct (upload JS path_extname full_is_over E files) as [req_files|err] eqn:Hup.
  - exfalso. unfold upload in Hup.
    destruct (upload_array_Ok _ _ _ _ _ _ _ _ Hup) as [_ [Hall _]].
    rewrite Forall_forall in Hall. destruct (Hall file Hin) as [Hacc _].
    congruence.
  - assert (Herr : err = mkExn "Error" "Only images, PDFs, and documents are allowed!"
                   \/ err = mkExn "MulterError" "Unexpected field"
                   \/ err = mkExn "MulterError" "File too large").
    { unfold upload in Hup. revert Hup. generalize maxCount, 0%nat.
      clear Hin. induction files as [|f rest IH]; intros left i;
        cbn [upload_array]; [discriminate|].
      destruct (if String.eqb (f_fieldname f) "attachments" then left else 0%nat)
        as [|left'].
      - intros H. inversion H. auto.
      - unfold fileFilter.
        destruct (andb _ _).
        + destruct ((fileSize <? f_size f)
                    || (full_is_over && (f_size f =? fileSize)));
            [intros H; inversion H; auto|].
          destruct (upload_array JS path_extname full_is_over E left' (S i) rest) eqn:Hrest;
            [discriminate|].
          intros H. inversion H; subst. now apply (IH left' (S i)).
        + intros H. inversion H. auto. }
    destruct Herr as [H|[H|H]]; subst err; cbn; auto.
Qed.

Lemma plain_text_and_msword_are_refused_witness :
  createSupportRequest latin1_strings demo_extname true demo_env
    [mkFilePart "attachments" "notes.txt" "text/plain" 120] (Some "Help")
    (Some "It broke") None (Some "ann@x.com") None demo_world
  = (mkResponse 400
       (JObj [("success", JBool false);
              ("message", JStr "Only images, PDFs, and documents are allowed!")]),
     demo_world)
  \/ createSupportRequest latin1_strings demo_extname true demo_env
       [mkFilePart "attachments" "notes.txt" "text/plain" 120] (Some "Help")
       (Some "It broke") None (Some "ann@x.com") None demo_world
     = (mkResponse 400
       (JObj [("success", JBool false);
              ("message", JStr "File upload error: Unexpected field")]), demo_world)
  \/ createSupportRequest latin1_strings demo_extname true demo_env
       [mkFilePart "attachments" "notes.txt" "text/plain" 120] (Some "Help")
       (Some "It broke") None (Some "ann@x.com") None demo_world
     = (mkResponse 400
       (JObj [("success", JBool false);
              ("message", JStr "File upload error: File too large")]), demo_world).
Proof.
  apply (plain_text_and_msword_are_refused latin1_strings demo_extname true demo_env
           [mkFilePart "attachments" "notes.txt" "text/plain" 120]
           (mkFilePart "attachments" "notes.txt" "text/plain" 120)).
  - left. reflexivity.
  - left. reflexivity.
Defined.

(** X25: reading tickets changes nothing but the console: after
    [getSupportRequest] and after [getAllSupportRequests] the users, the
    tickets and the id counter are as before, whatever the query and
    whether or not the store answers. *)
Theorem reading_tickets_changes_nothing
    (unread_query :
       option string -> option string -> option string -> world -> outcome response)
    (skip_error : Z -> exn)
    (E : env) (id : nat) (status_filter page limit : option string) (w : world) :
  let w1 := snd (getSupportRequest E id w) in
  let w2 := snd (getAllSupportRequests unread_query skip_error E status_filter
                   page limit w) in
  (users w1 = users w /\ requests w1 = requests w /\ next_id w1 = next_id w)
  /\ (users w2 = users w /\ requests w2 = requests w /\ next_id w2 = next_id w).
Proof.
  cbv zeta. split.
  - unfold getSupportRequest, try_catch, bind, ret, SupportRequest_findById,
      populate_one, support_caught, db_call.
    repeat (branch; cbn beta iota); cbn; repeat split.
  - unfold getAllSupportRequests, try_catch, bind, ret, populate,
      support_caught, db_call.
    cbv zeta.
    repeat (branch; cbn beta iota); cbn; repeat split.
Qed.

(** ** Concrete instances of the frame properties *)

Lemma createSupportRequest_records_witness :
  exists doc,
    requests (snd (createSupportRequest latin1_strings demo_extname true demo_env [photo]
                     (Some " Help ") (Some "It broke") None (Some "Ann@X.com")
                     None ticket_world))
    = [ticket; doc]
    /\ sr_subject doc = "Help" /\ sr_email doc = "ann@x.com"
    /\ map a_filename (sr_attachments doc) = ["screen.PNG"].
Proof.
  destruct (createSupportRequest_records latin1_strings demo_extname true demo_env [photo]
              (Some " Help ") (Some "It broke") None (Some "Ann@X.com") None
              ticket_world) as [_ [_ H]].
  destruct (H eq_refl) as [doc [Hreq [_ [_ [_ [_ [_ [_ [Hnames _]]]]]]]]].
  exists doc. split; [exact Hreq|].
  cbn in Hreq. injection Hreq as Hdoc. subst doc. repeat split.
Defined.

Lemma update_keeps_the_rest_witness :
  In ticket (requests (snd (updateSupportRequestStatus demo_env 7 "closed" "low"
                              ticket_world))).
Proof.
  destruct (update_keeps_the_rest demo_env 7 "closed" "low" ticket_world)
    as [_ [H _]].
  apply (H ticket); [left; reflexivity | discriminate].
Defined.

Lemma delete_spares_the_rest_witness :
  In ticket (requests (snd (fst (deleteSupportRequest demo_env (fun _ => None) 7
                                   ticket_world ["uploads/support/support-1.PNG"])))).
Proof.
  destruct (delete_spares_the_rest demo_env (fun _ => None) 7 ticket_world
              ["uploads/support/support-1.PNG"]) as [H _].
  apply (H ticket); [left; reflexivity | discriminate].
Defined.
